(** * CineGuess catalog scripts: a shallow embedding

    The development follows the Python sources file by file:
    - [Py]            the few primitives of Python the scripts lean on
                      (character classes, [str] methods, [int], [sorted],
                      [pathlib] names);
    - [Fs]            the folders under BASE_DIR;
    - [DbMaker]       bulkdatastuff/db_maker.py;
    - [UpdateMovies]  bulkdatastuff/update_movies.py;
    - [ReportAssets]  parse_tmdb_id, identical in report_assets.py,
                      fetch_tmdb_assets.py and report_plutogang.py;
    - [Spec]          the words the statements are written in;
    - [Examples]      sample catalogs, folders and remotes.

    The remote API is a function from the requested id to the decoded
    answer, or to nothing when the request fails.

    Strings are sequences of 8-bit characters; the character classes are the
    ones Python gives on the ASCII range. *)

From Stdlib Require Import Bool Arith ZArith Lia List Ascii String.
From Stdlib Require Import Permutation Sorted OrderedTypeEx.
From Stdlib Require DecimalString.
Import ListNotations.

Open Scope string_scope.
Open Scope list_scope.

(* ================================================================== *)
(** ** Python primitives *)
(* ================================================================== *)

Module Py.

(** Exceptions that reach the embedded code. *)
Inductive exn : Type :=
| TypeError
| ValueError
| FileNotFoundError.

(** A computation that either raises or returns. *)
Inductive result (A : Type) : Type :=
| Raise (e : exn)
| Return (a : A).
Arguments Raise {A} e.
Arguments Return {A} a.

Definition bind {A B : Type} (m : result A) (k : A -> result B) : result B :=
  match m with
  | Raise e => Raise e
  | Return a => k a
  end.

Notation "x <- m ;; k" := (bind m (fun x => k))
  (at level 61, m at next level, right associativity).

(** *** Character classes (ASCII range) *)

Definition code (c : ascii) : nat := nat_of_ascii c.

Definition between (lo hi : nat) (c : ascii) : bool :=
  (lo <=? code c)%nat && (code c <=? hi)%nat.

Definition isupper (c : ascii) : bool := between 65 90 c.
Definition islower (c : ascii) : bool := between 97 122 c.
Definition isalpha (c : ascii) : bool := isupper c || islower c.
Definition isdigit (c : ascii) : bool := between 48 57 c.

(** [str.isspace]: TAB, LF, VT, FF, CR, FS, GS, RS, US and SPACE. *)
Definition isspace (c : ascii) : bool :=
  between 9 13 c || between 28 32 c.

Definition lower (c : ascii) : ascii :=
  if isupper c then ascii_of_nat (code c + 32) else c.

Definition upper (c : ascii) : ascii :=
  if islower c then ascii_of_nat (code c - 32) else c.

(** *** [str] methods *)

Definition is_empty (s : string) : bool :=
  match s with
  | EmptyString => true
  | String _ _ => false
  end.

Fixpoint str_map (f : ascii -> ascii) (s : string) : string :=
  match s with
  | EmptyString => EmptyString
  | String c s' => String (f c) (str_map f s')
  end.

Definition str_lower : string -> string := str_map lower.
Definition str_upper : string -> string := str_map upper.

Fixpoint str_filter (p : ascii -> bool) (s : string) : string :=
  match s with
  | EmptyString => EmptyString
  | String c s' => if p c then String c (str_filter p s') else str_filter p s'
  end.

Fixpoint str_exists (p : ascii -> bool) (s : string) : bool :=
  match s with
  | EmptyString => false
  | String c s' => p c || str_exists p s'
  end.

Fixpoint str_forall (p : ascii -> bool) (s : string) : bool :=
  match s with
  | EmptyString => true
  | String c s' => p c && str_forall p s'
  end.

Definition is_char (d : ascii) (c : ascii) : bool := Ascii.eqb c d.

(** [s.startswith(p)] *)
Definition startswith (p s : string) : bool := String.prefix p s.

Fixpoint str_rev_onto (s acc : string) : string :=
  match s with
  | EmptyString => acc
  | String c s' => str_rev_onto s' (String c acc)
  end.

Definition str_rev (s : string) : string := str_rev_onto s EmptyString.

(** [s.endswith(p)] *)
Definition endswith (p s : string) : bool :=
  String.prefix (str_rev p) (str_rev s).

(** Stripping a character class from the left, the right and both ends. *)
Fixpoint lstrip_by (p : ascii -> bool) (s : string) : string :=
  match s with
  | EmptyString => EmptyString
  | String c s' => if p c then lstrip_by p s' else s
  end.

Fixpoint rstrip_by (p : ascii -> bool) (s : string) : string :=
  match s with
  | EmptyString => EmptyString
  | String c s' =>
      match rstrip_by p s' with
      | EmptyString => if p c then EmptyString else String c EmptyString
      | r => String c r
      end
  end.

Definition strip_by (p : ascii -> bool) (s : string) : string :=
  rstrip_by p (lstrip_by p s).

(** [s.strip()] *)
Definition strip : string -> string := strip_by isspace.

(** Splitting at every character of a class: [s.split(sep)] for a
    one-character separator and [re.split] on a character class.  The
    result always has one more piece than there are separators. *)
Fixpoint split_on (p : ascii -> bool) (s : string) : list string :=
  match s with
  | EmptyString => [EmptyString]
  | String c s' =>
      if p c then EmptyString :: split_on p s'
      else match split_on p s' with
           | w :: ws => String c w :: ws
           | [] => [String c EmptyString]
           end
  end.

(** [s.split(sep, 1)] for a one-character separator. *)
Fixpoint split_once (p : ascii -> bool) (s : string) : list string :=
  match s with
  | EmptyString => [EmptyString]
  | String c s' =>
      if p c then [EmptyString; s']
      else match split_once p s' with
           | w :: ws => String c w :: ws
           | [] => [String c EmptyString]
           end
  end.

(** [sep.join(parts)] *)
Definition join (sep : string) (parts : list string) : string :=
  String.concat sep parts.

(** First and last character, when there is one. *)
Definition first_char (s : string) : option ascii :=
  match s with
  | EmptyString => None
  | String c _ => Some c
  end.

Fixpoint last_char (s : string) : option ascii :=
  match s with
  | EmptyString => None
  | String c s' =>
      match last_char s' with
      | None => Some c
      | Some d => Some d
      end
  end.

Definition char_ok (p : ascii -> bool) (o : option ascii) : bool :=
  match o with
  | None => true
  | Some c => p c
  end.

(** No white space at either end. *)
Definition trimmed (s : string) : bool :=
  char_ok (fun c => negb (isspace c)) (first_char s)
  && char_ok (fun c => negb (isspace c)) (last_char s).

(** *** [int(s)] on a string

    White space (TAB, LF, VT, FF, CR, SPACE) around the number, one optional
    sign, then decimal digits with single underscores allowed between two
    digits.  Anything else raises ValueError. *)

Definition int_space (c : ascii) : bool := between 9 13 c || is_char " " c.

Fixpoint int_digits (s : string) (after_digit : bool) (acc : Z) : option Z :=
  match s with
  | EmptyString => if after_digit then Some acc else None
  | String c s' =>
      if isdigit c then
        int_digits s' true (10 * acc + Z.of_nat (code c - 48))%Z
      else if is_char "_" c && after_digit then int_digits s' false acc
      else None
  end.

Definition int_of_str (s : string) : result Z :=
  let t := strip_by int_space s in
  let '(negative, body) :=
    match t with
    | String "+" r => (false, r)
    | String "-" r => (true, r)
    | _ => (false, t)
    end in
  match int_digits body false 0%Z with
  | Some n => Return (if negative then (- n)%Z else n)
  | None => Raise ValueError
  end.

(** *** Ordering of sort keys

    A key is an [int] or a [str].  [<] compares two ints numerically and two
    strs by code point; between an int and a str it raises TypeError. *)

Inductive value : Type :=
| VInt (n : Z)
| VStr (s : string).

Definition lt (a b : value) : result bool :=
  match a, b with
  | VInt x, VInt y => Return (x <? y)%Z
  | VStr x, VStr y => Return (String.ltb x y)
  | _, _ => Raise TypeError
  end.

(** *** [sorted(l, key=...)]

    [list.sort] is a stable comparison sort that asks only [<] of the keys
    and lets the first exception of a comparison escape.  The model inserts
    the elements from left to right into the sorted prefix, each one before
    the first element that it is smaller than (the place the binary insertion
    of CPython finds), so equal keys keep their input order.  A key of another
    type than the prefix is compared with an element of the prefix before it
    is placed, which is where CPython raises too. *)

Section Sorted.
Context {A : Type} (less : A -> A -> result bool).

Fixpoint insert (x : A) (l : list A) : result (list A) :=
  match l with
  | [] => Return [x]
  | e :: l' =>
      b <- less x e ;;
      if b : bool then Return (x :: l)
      else r <- insert x l' ;; Return (e :: r)
  end.

Fixpoint sorted_onto (acc : list A) (l : list A) : result (list A) :=
  match l with
  | [] => Return acc
  | x :: l' => acc' <- insert x acc ;; sorted_onto acc' l'
  end.

Definition sorted (l : list A) : result (list A) := sorted_onto [] l.
End Sorted.

(** *** [pathlib]: suffix and stem of a file name

    The suffix starts at the last dot, unless that dot is the first or the
    last character of the name. *)

Fixpoint rfind_dot (s : string) (pos : nat) (found : option nat) : option nat :=
  match s with
  | EmptyString => found
  | String c s' =>
      rfind_dot s' (S pos) (if is_char "." c then Some pos else found)
  end.

Definition suffix_start (name : string) : option nat :=
  match rfind_dot name 0 None with
  | Some i =>
      if (0 <? i)%nat && (i <? String.length name - 1)%nat then Some i else None
  | None => None
  end.

Definition path_suffix (name : string) : string :=
  match suffix_start name with
  | Some i => String.substring i (String.length name - i) name
  | None => EmptyString
  end.

Definition path_stem (name : string) : string :=
  match suffix_start name with
  | Some i => String.substring 0 i name
  | None => name
  end.

End Py.

Import Py.

(* ================================================================== *)
(** ** The folder tree under BASE_DIR *)
(* ================================================================== *)

Module Fs.

(** An entry of a movie folder: its name and whether it is a regular file. *)
Record dirent : Type := mk_dirent {
  d_name : string;
  d_is_file : bool
}.

(** The directories directly under BASE_DIR with their entries, in the order
    [iterdir] yields them.  Entries of BASE_DIR that are not directories are
    skipped by every reader and are left out.  A catalog id names one path
    component: BASE_DIR / id is the directory of that name or does not exist. *)
Definition tree : Type := list (string * list dirent).

Fixpoint folder (root : tree) (name : string) : option (list dirent) :=
  match root with
  | [] => None
  | (n, entries) :: root' =>
      if String.eqb n name then Some entries else folder root' name
  end.

Definition has_entry (entries : list dirent) (name : string) : bool :=
  existsb (fun e => String.eqb (d_name e) name) entries.

(** [(BASE_DIR / id / name).exists()] *)
Definition path_exists (root : tree) (id name : string) : bool :=
  match folder root id with
  | Some entries => has_entry entries name
  | None => false
  end.

(** [(BASE_DIR / id / name).unlink()]: a regular file of that name goes
    away; unlinking a directory fails with OSError and changes nothing. *)
Definition remove_file (name : string) (entries : list dirent) : list dirent :=
  filter (fun e => negb (String.eqb (d_name e) name && d_is_file e)) entries.

Fixpoint unlink (root : tree) (id name : string) : tree :=
  match root with
  | [] => []
  | (n, entries) :: root' =>
      if String.eqb n id then (n, remove_file name entries) :: root'
      else (n, entries) :: unlink root' id name
  end.

End Fs.

(* ================================================================== *)
(** ** bulkdatastuff/db_maker.py *)
(* ================================================================== *)

Module DbMaker.

Import Fs.

(** *** The catalog record

    A record of movies.json.  The five keys the reconciler reads or writes
    are fields of their own, absent keys being [None]; the keys it only
    carries along are grouped under [details]. *)

Record info : Type := mk_info {
  title : string;
  cast : list string;
  director : string;
  plot : string;
  tagline : string;
  movie_initials : string;
  (** decade, genres, original_language, popularity, production_companies,
      release_date, revenue, vote_average, vote_count *)
  rest : list (string * string)
}.

Record movie : Type := mk_movie {
  tmdb_id : option string;
  challenge_id : option string;
  poster : option bool;
  screenshots : option bool;
  screenshot_count : option nat;
  details : info
}.

Definition set_poster (b : bool) (m : movie) : movie :=
  mk_movie (tmdb_id m) (challenge_id m) (Some b) (screenshots m)
           (screenshot_count m) (details m).

Definition set_screenshots (b : bool) (m : movie) : movie :=
  mk_movie (tmdb_id m) (challenge_id m) (poster m) (Some b)
           (screenshot_count m) (details m).

Definition set_screenshot_count (n : nat) (m : movie) : movie :=
  mk_movie (tmdb_id m) (challenge_id m) (poster m) (screenshots m)
           (Some n) (details m).

(** *** The answer of the remote API for one id *)

Record cast_member : Type := mk_cast {
  member_name : string;
  member_order : option Z
}.

Record crew_member : Type := mk_crew {
  person_name : string;
  person_job : string
}.

Record response : Type := mk_response {
  (** [str(data[id])] when the answer has an id *)
  data_id : option string;
  data_title : string;
  data_overview : string;
  data_tagline : string;
  data_cast : list cast_member;
  data_crew : list crew_member;
  data_rest : list (string * string)
}.

(** What a run leaves in script.log and on the console. *)
Inductive event : Type :=
| Processing (id : string)
| DeletedMetadata (id : string)
| DeleteFailed (id : string)
| Fetch (id : string)
| FetchFailed (id : string)
| Skipped (id : string).

(** *** clean_text

    [re.sub(pattern, empty, text, flags=re.IGNORECASE)] for a pattern that
    is an alternation of escaped names.  At a position the alternatives are
    tried in order.  An empty match is replaced by nothing and the search
    resumes at the same position, where it must now advance: only a non-empty
    alternative is accepted there. *)

Fixpoint prefix_ci (n s : string) : bool :=
  match n, s with
  | EmptyString, _ => true
  | String a n', String b s' => Ascii.eqb (lower a) (lower b) && prefix_ci n' s'
  | String _ _, EmptyString => false
  end.

Fixpoint match_alt (must_advance : bool) (names : list string) (s : string)
  : option nat :=
  match names with
  | [] => None
  | n :: ns =>
      if prefix_ci n s && negb (must_advance && is_empty n)
      then Some (String.length n)
      else match_alt must_advance ns s
  end.

Definition match_here (names : list string) (s : string) : option nat :=
  match match_alt false names s with
  | Some O => match_alt true names s
  | r => r
  end.

(** The scan: [skip] counts the characters of the current match that are
    still to be dropped. *)
Fixpoint re_sub_delete (names : list string) (skip : nat) (s : string) : string :=
  match s with
  | EmptyString => EmptyString
  | String c s' =>
      match skip with
      | S k => re_sub_delete names k s'
      | O =>
          match match_here names s with
          | Some (S k) => re_sub_delete names k s'
          | _ => String c (re_sub_delete names 0 s')
          end
      end
  end.

Definition no_names (names : list string) : bool :=
  match names with
  | [] => true
  | _ :: _ => false
  end.

Definition clean_text (text : string) (names_to_remove : list string) : string :=
  if is_empty text || no_names names_to_remove then text
  else strip (re_sub_delete names_to_remove 0 text).

(** *** get_movie_initials *)

Fixpoint all_some {A : Type} (l : list (option A)) : option (list A) :=
  match l with
  | [] => Some []
  | None :: _ => None
  | Some a :: l' =>
      match all_some l' with
      | Some r => Some (a :: r)
      | None => None
      end
  end.

Definition starts_alpha (word : string) : bool :=
  match word with
  | EmptyString => false
  | String c _ => isalpha c
  end.

Definition first_upper (word : string) : string :=
  match word with
  | EmptyString => EmptyString
  | String c _ => String (upper c) EmptyString
  end.

(** The recursion of the source is on the segments between colons; [depth]
    bounds the number of nested calls. *)
Fixpoint get_movie_initials_at (depth : nat) (title : string) : option string :=
  match depth with
  | O => None
  | S depth' =>
      if is_empty title then Some EmptyString
      else
        let words :=
          filter (fun word => negb (is_empty word))
                 (split_on (fun c => is_char " " c || is_char "-" c) title) in
        let initials :=
          join EmptyString (map first_upper (filter starts_alpha words)) in
        if str_exists (is_char ":") title then
          option_map (join ":")
            (all_some
               (map (fun part => get_movie_initials_at depth' (strip part))
                    (split_on (is_char ":") title)))
        else Some initials
  end.

(** A segment holds no colon, so the calls nest twice at most. *)
Definition get_movie_initials (title : string) : option string :=
  get_movie_initials_at 2 title.

(** *** fetch_movie_data *)

(** Billing order, a missing order counting as infinity. *)
Definition order_lt (a b : cast_member) : result bool :=
  Return
    match member_order a, member_order b with
    | Some x, Some y => (x <? y)%Z
    | Some _, None => true
    | None, _ => false
    end.

Definition top_cast (members : list cast_member) : list string :=
  match sorted order_lt members with
  | Return cast_list => map member_name (firstn 6 cast_list)
  | Raise _ => []
  end.

Definition top_director (crew : list crew_member) : string :=
  match find (fun person => String.eqb (person_job person) "Director") crew with
  | Some person => person_name person
  | None => EmptyString
  end.

Definition names_to_remove (data : response) : list string :=
  top_cast (data_cast data) ++ [top_director (data_crew data); data_title data].

(** The record built from a decoded answer; the folder flags are added by
    [process_folder]. *)
Definition movie_data (id : string) (data : response) : movie :=
  let names := names_to_remove data in
  mk_movie
    (Some match data_id data with Some i => i | None => id end)
    None None None None
    (mk_info (data_title data)
             (top_cast (data_cast data))
             (top_director (data_crew data))
             (clean_text (data_overview data) names)
             (clean_text (data_tagline data) names)
             (match get_movie_initials (data_title data) with
              | Some s => s
              | None => EmptyString
              end)
             (data_rest data)).

(** [http id] is the decoded answer of the one GET request for [id], or
    [None] when the request raises RequestException. *)
Definition fetch_movie_data (http : string -> option response) (id : string)
  : option movie * list event :=
  match http id with
  | Some data => (Some (movie_data id data), [Fetch id])
  | None => (None, [Fetch id; FetchFailed id])
  end.

(** *** process_folder *)

Definition is_screenshot_name (f : string) : bool :=
  startswith "screenshot" f && endswith ".jpg" f.

Definition delete_metadata (root : tree) (id : string) (entries : list dirent)
  : tree * list event :=
  if has_entry entries "metadata.txt" then
    if existsb (fun e => String.eqb (d_name e) "metadata.txt" && d_is_file e) entries
    then (unlink root id "metadata.txt", [DeletedMetadata id])
    else (root, [DeleteFailed id])
  else (root, []).

(** Returns the record (or [None]), the folder tree it leaves and its log.
    [os.listdir] raises when the folder does not exist. *)
Definition process_folder (http : string -> option response) (root : tree)
    (id : string) : result (option movie * tree * list event) :=
  match folder root id with
  | None => Raise FileNotFoundError
  | Some entries =>
      let poster_exists := has_entry entries "poster.jpg" in
      let screenshots_exist :=
        existsb (fun e => is_screenshot_name (d_name e)) entries in
      let '(root', deleted) := delete_metadata root id entries in
      let '(fetched, log) := fetch_movie_data http id in
      let log := Processing id :: deleted ++ log in
      match fetched with
      | None => Return (None, root', log)
      | Some m =>
          Return
            (Some (mk_movie (tmdb_id m) (Some EmptyString) (Some poster_exists)
                            (Some screenshots_exist) (screenshot_count m)
                            (details m)),
             root', log)
      end
  end.

End DbMaker.

(* ================================================================== *)
(** ** bulkdatastuff/update_movies.py *)
(* ================================================================== *)

Module UpdateMovies.

Import Fs DbMaker.

(** *** The dict [movies_by_id]

    A Python dict keeps its keys in insertion order; assigning to a key that
    is already there replaces the value where it stands. *)

Definition dict : Type := list (string * movie).

Fixpoint dict_get (k : string) (d : dict) : option movie :=
  match d with
  | [] => None
  | (k', v) :: d' => if String.eqb k' k then Some v else dict_get k d'
  end.

Definition dict_mem (k : string) (d : dict) : bool :=
  match dict_get k d with
  | Some _ => true
  | None => false
  end.

Fixpoint dict_set (k : string) (v : movie) (d : dict) : dict :=
  match d with
  | [] => [(k, v)]
  | (k', v') :: d' =>
      if String.eqb k' k then (k', v) :: d' else (k', v') :: dict_set k v d'
  end.

Definition dict_keys (d : dict) : list string := map fst d.
Definition dict_values (d : dict) : list movie := map snd d.

(** [{movie.get(tmdb_id): movie for movie in existing_movies
      if movie.get(tmdb_id)}] *)
Definition index_movie (d : dict) (m : movie) : dict :=
  match tmdb_id m with
  | Some id => if is_empty id then d else dict_set id m d
  | None => d
  end.

Definition index_existing (existing_movies : list movie) : dict :=
  fold_left index_movie existing_movies [].

(** *** count_screenshots *)

Definition is_screenshot_file (item : dirent) : bool :=
  d_is_file item
  && startswith "screenshot" (str_lower (d_name item))
  && String.eqb (str_lower (path_suffix (d_name item))) ".jpg".

Definition count_screenshots (root : tree) (id : string) : nat :=
  match folder root id with
  | None => 0
  | Some entries => List.length (filter is_screenshot_file entries)
  end.

(** *** sort_movies *)

Definition _key (m : movie) : value :=
  match int_of_str (match tmdb_id m with Some id => id | None => "0" end) with
  | Return n => VInt n
  | Raise _ => VStr (match tmdb_id m with Some id => id | None => EmptyString end)
  end.

Definition key_lt (a b : movie) : result bool := lt (_key a) (_key b).

Definition sort_movies (movies : list movie) : result (list movie) :=
  sorted key_lt movies.

(** *** scan_movie_folders *)

Definition scan_movie_folders (root : tree) : list string := map fst root.

(** *** update_existing_flags *)

Definition flag_differs (old : option bool) (now : bool) : bool :=
  match old with
  | Some b => negb (Bool.eqb b now)
  | None => true
  end.

(** The body of the loop for one entry: the refreshed record and whether a
    flag flipped. *)
Definition refresh (root : tree) (id : string) (m : movie) : movie * bool :=
  let poster_exists := path_exists root id "poster.jpg" in
  let count := count_screenshots root id in
  let screenshots_exist := (0 <? count)%nat in
  let '(m, changed) :=
    if flag_differs (poster m) poster_exists
    then (set_poster poster_exists m, true) else (m, false) in
  let '(m, changed) :=
    if flag_differs (screenshots m) screenshots_exist
    then (set_screenshots screenshots_exist m, true) else (m, changed) in
  (set_screenshot_count count m, changed).

Fixpoint update_existing_flags (movies_by_id : dict) (root : tree) : dict * nat :=
  match movies_by_id with
  | [] => ([], 0)
  | (id, m) :: d' =>
      let '(m', changed) := refresh root id m in
      let '(d'', updated) := update_existing_flags d' root in
      ((id, m') :: d'', (if changed then 1 else 0) + updated)
  end.

(** *** main *)

Record run_state : Type := mk_state {
  movies_by_id : dict;
  new_movies : list movie;
  added : nat;
  disk : tree;
  log : list event
}.

(** The loop over [new_ids]. *)
Fixpoint add_new (http : string -> option response) (new_ids : list string)
    (st : run_state) : result run_state :=
  match new_ids with
  | [] => Return st
  | id :: ids =>
      r <- process_folder http (disk st) id ;;
      let '(fetched, root', evs) := r in
      match fetched with
      | Some m =>
          add_new http ids
            (mk_state (dict_set id m (movies_by_id st)) (new_movies st ++ [m])
                      (S (added st)) root' (log st ++ evs))
      | None =>
          add_new http ids
            (mk_state (movies_by_id st) (new_movies st) (added st) root'
                      (log st ++ evs ++ [Skipped id]))
      end
  end.

Definition new_folder_ids (d : dict) (folder_ids : list string) : list string :=
  filter (fun id => negb (dict_mem id d)) folder_ids.

(** The dict after the loop over the new ids and the refresh, with the
    state the loop left. *)
Definition merge (http : string -> option response) (root : tree)
    (existing_movies : list movie) : result (dict * nat * run_state) :=
  let d := index_existing existing_movies in
  let folder_ids := scan_movie_folders root in
  let new_ids := new_folder_ids d folder_ids in
  st <- add_new http new_ids (mk_state d [] 0 root []) ;;
  let '(d', refreshed) := update_existing_flags (movies_by_id st) (disk st) in
  Return (d', refreshed, st).

Record outcome : Type := mk_outcome {
  all_movies : list movie;
  added_count : nat;
  refreshed_count : nat;
  listed_new : list string;
  missing_screens : list (option string);
  (** what write_movies stored, [None] in report-only mode *)
  written : option (list movie);
  disk_after : tree;
  run_log : list event
}.

Definition no_screens (m : movie) : bool :=
  match screenshot_count m with
  | Some n => (n =? 0)%nat
  | None => true
  end.

Definition main (http : string -> option response) (report_only : bool)
    (root : tree) (existing_movies : list movie) : result outcome :=
  r <- merge http root existing_movies ;;
  let '(d, refreshed, st) := r in
  all <- sort_movies (dict_values d) ;;
  Return
    (mk_outcome all (added st) refreshed
       (new_folder_ids (index_existing existing_movies) (scan_movie_folders root))
       (map tmdb_id (filter no_screens all))
       (if report_only then None else Some all)
       (disk st) (log st)).

End UpdateMovies.

(* ================================================================== *)
(** ** parse_tmdb_id (report_assets.py, fetch_tmdb_assets.py,
       report_plutogang.py) *)
(* ================================================================== *)

Module ReportAssets.

(** The loop over the lines of the metadata file: the first line that starts
    with the key (any case) and has something after the colon. *)
Fixpoint id_line (lines : list string) : option string :=
  match lines with
  | [] => None
  | line :: lines' =>
      if startswith "id:" (str_lower line) then
        let maybe := strip (nth 1 (split_once (is_char ":") line) EmptyString) in
        if is_empty maybe then id_line lines' else Some maybe
      else id_line lines'
  end.

Definition stem_digits (name : string) : option string :=
  let digits := str_filter isdigit (path_stem name) in
  if is_empty digits then None else Some digits.

(** [name] is the file name of the metadata file and [content] its lines,
    [None] when opening or reading it raises OSError. *)
Definition parse_tmdb_id (name : string) (content : option (list string))
  : option string :=
  let tmdb_id :=
    match content with
    | Some lines => id_line lines
    | None => None
    end in
  match tmdb_id with
  | Some id => if is_empty id then stem_digits name else Some id
  | None => stem_digits name
  end.

(** The rule as the specification words it, for comparison: the longest run
    of digit characters of the file name (the first one among equals). *)
Definition digit_runs (name : string) : list string :=
  filter (fun run => negb (is_empty run))
         (split_on (fun c => negb (isdigit c)) name).

Definition longer (best run : string) : string :=
  if (String.length best <? String.length run)%nat then run else best.

Definition spec_longest_digit_run (name : string) : option string :=
  match digit_runs name with
  | [] => None
  | run :: runs => Some (fold_left longer runs run)
  end.

(** The rule as the comment in report_plutogang.py words it, for comparison:
    the leading digits of the stem. *)
Fixpoint leading_run (s : string) : string :=
  match s with
  | String c s' => if isdigit c then String c (leading_run s') else EmptyString
  | EmptyString => EmptyString
  end.

Definition comment_leading_digits (name : string) : option string :=
  let digits := leading_run (path_stem name) in
  if is_empty digits then None else Some digits.

End ReportAssets.

(* ================================================================== *)
(** ** db_maker.py: get_decade, format_revenue and main *)
(* ================================================================== *)

Module Normalizers.

Import Fs DbMaker.

(** [str(n)] for an int. *)
Definition str_of_int (n : Z) : string :=
  DecimalString.NilEmpty.string_of_int (Z.to_int n).

(** [release_date] is a str, or [None] for a JSON null, on which [split]
    raises AttributeError. *)
Definition get_decade (release_date : option string) : string :=
  match release_date with
  | None => EmptyString
  | Some date =>
      match int_of_str (hd EmptyString (split_on (is_char "-") date)) with
      | Return year => (str_of_int (year / 10 * 10) ++ "s")%string
      | Raise _ => EmptyString
      end
  end.

(** What the answer can hold under the key revenue: an int, a str, or
    null. *)
Inductive revenue_value : Type :=
| RevInt (n : Z)
| RevStr (s : string)
| RevNone.

(** [int(revenue)] *)
Definition int_of_revenue (revenue : revenue_value) : result Z :=
  match revenue with
  | RevInt n => Return n
  | RevStr s => int_of_str s
  | RevNone => Raise TypeError
  end.

(** The format spec [,]: the digits from the right in groups of three. *)
Fixpoint group3 (reversed : string) : string :=
  match reversed with
  | String a (String b (String c rest)) =>
      match rest with
      | EmptyString => reversed
      | String _ _ => String a (String b (String c (String "," (group3 rest))))
      end
  | _ => reversed
  end.

Definition with_commas (n : Z) : string :=
  ((if (n <? 0)%Z then "-" else EmptyString)
   ++ str_rev (group3 (str_rev (str_of_int (Z.abs n)))))%string.

Definition format_revenue (revenue : revenue_value) : string :=
  match int_of_revenue revenue with
  | Return n => String "$" (with_commas n)
  | Raise _ => "$0"
  end.

(** The state of the loop of [main]. *)
Record build_state : Type := mk_build {
  movies : list movie;
  folder_count : nat;
  build_disk : tree;
  build_log : list event
}.

Fixpoint build (http : string -> option response) (folders : list string)
    (st : build_state) : result build_state :=
  match folders with
  | [] => Return st
  | id :: ids =>
      r <- process_folder http (build_disk st) id ;;
      let '(fetched, root', evs) := r in
      build http ids
        (mk_build (match fetched with
                   | Some m => movies st ++ [m]
                   | None => movies st
                   end)
                  (S (folder_count st)) root' (build_log st ++ evs))
  end.

(** [main]: the records written to movies.json and the state it ends in. *)
Definition main (http : string -> option response) (root : tree)
  : result build_state :=
  build http (map fst root) (mk_build [] 0 root []).

End Normalizers.

(* ================================================================== *)
(** ** bulkdatastuff/fetch_screenshots.py *)
(* ================================================================== *)

Module FetchScreenshots.

Import DbMaker.

(** load_missing_ids, on the parsed movies.json. *)
Definition wants_screens (m : movie) : bool :=
  match screenshot_count m with
  | Some n => (n =? 0)%nat
  | None => true
  end
  && match tmdb_id m with
     | Some id => negb (is_empty id)
     | None => false
     end.

Definition load_missing_ids (catalog : list movie) : list (option string) :=
  map tmdb_id (filter wants_screens catalog).

(** The loop of [main] that removes repeated ids: [seen] is the set, the
    result grows at its end. *)
Fixpoint unique_onto (seen : list string) (tmdb_ids : list string) : list string :=
  match tmdb_ids with
  | [] => []
  | id :: ids =>
      if existsb (String.eqb id) seen then unique_onto seen ids
      else id :: unique_onto (id :: seen) ids
  end.

Definition tmdb_ids_unique (tmdb_ids : list string) : list string :=
  unique_onto [] tmdb_ids.

End FetchScreenshots.

(* ================================================================== *)
(** ** report_assets.py and report_plutogang.py: the summary of main *)
(* ================================================================== *)

Module Report.

(** A row of [scan]. *)
Record row : Type := mk_row {
  folder_name : string;
  row_tmdb_id : string;
  has_metadata : bool;
  has_poster : bool;
  row_screenshot_count : nat
}.

(** [items[:limit]] for an int: a negative limit counts from the end. *)
Definition slice_to {A : Type} (limit : Z) (items : list A) : list A :=
  if (limit <? 0)%Z
  then firstn (List.length items - Z.to_nat (- limit)) items
  else firstn (Z.to_nat limit) items.

Record summary : Type := mk_summary {
  total : nat;
  with_meta : nat;
  with_poster : nat;
  with_screens : nat;
  missing_meta : list row;
  missing_poster : list row;
  missing_screens : list row;
  (** the rows that [_sample] prints under each heading *)
  shown_meta : list row;
  shown_poster : list row;
  shown_screens : list row
}.

Definition summarize (limit : Z) (rows : list row) : summary :=
  let missing_meta := filter (fun r => negb (has_metadata r)) rows in
  let missing_poster := filter (fun r => negb (has_poster r)) rows in
  let missing_screens :=
    filter (fun r => (row_screenshot_count r =? 0)%nat) rows in
  mk_summary
    (List.length rows)
    (List.length (filter has_metadata rows))
    (List.length (filter has_poster rows))
    (List.length (filter (fun r => (0 <? row_screenshot_count r)%nat) rows))
    missing_meta missing_poster missing_screens
    (slice_to limit missing_meta)
    (slice_to limit missing_poster)
    (slice_to limit missing_screens).

(** The id that a sample line shows. *)
Definition shown_id (r : row) : string :=
  if is_empty (row_tmdb_id r) then "unknown" else row_tmdb_id r.

End Report.

(* ================================================================== *)
(** ** Vocabulary of the statements *)
(* ================================================================== *)

Module Spec.

Import Fs DbMaker UpdateMovies ReportAssets.

(** [name] occurs somewhere in [s], ignoring case. *)
Fixpoint occurs_ci (name s : string) : bool :=
  prefix_ci name s
  || match s with
     | EmptyString => false
     | String _ s' => occurs_ci name s'
     end.

(** The stretches of the text that the scan of [re_sub_delete] keeps: a new
    one starts after each deleted match. *)
Fixpoint kept_pieces (names : list string) (skip : nat) (s : string) : list string :=
  match s with
  | EmptyString => [EmptyString]
  | String c s' =>
      match skip with
      | S k => kept_pieces names k s'
      | O =>
          match match_here names s with
          | Some (S k) => EmptyString :: kept_pieces names k s'
          | _ =>
              match kept_pieces names 0 s' with
              | piece :: pieces => String c piece :: pieces
              | [] => [String c EmptyString]
              end
          end
      end
  end.

(** No non-empty name of the list occurs in the piece. *)
Definition free_of (names : list string) (piece : string) : bool :=
  forallb (fun name => is_empty name || negb (occurs_ci name piece)) names.

(** A line of a metadata file that gives an id: it starts with the key, in
    any case, and something other than white space follows the colon. *)
Definition gives_id (line : string) : bool :=
  startswith "id:" (str_lower line)
  && negb (is_empty (strip (nth 1 (split_once (is_char ":") line) EmptyString))).

(** Two folder trees look the same to the reconciler: the same folders in
    the same order, and for every id the same answers to the two questions
    it asks (is there a poster.jpg, how many screenshot files). *)
Definition same_view (a b : tree) : Prop :=
  scan_movie_folders a = scan_movie_folders b
  /\ forall id,
       path_exists a id "poster.jpg" = path_exists b id "poster.jpg"
       /\ count_screenshots a id = count_screenshots b id.

(** The remote answers with the id it was asked for: the record fetched for
    a folder carries the name of the folder as its id. *)
Definition echoes (http : string -> option response) : Prop :=
  forall id data, http id = Some data -> tmdb_id (movie_data id data) = Some id.

(** The record has this id. *)
Definition has_id (id : string) (m : movie) : bool :=
  match tmdb_id m with
  | Some i => String.eqb i id
  | None => false
  end.

(** The last record of the catalog with this id; an empty id names none. *)
Definition last_with_id (id : string) (catalog : list movie) : option movie :=
  if is_empty id then None else find (has_id id) (rev catalog).

(** The record has an id, and it is not empty. *)
Definition identified (m : movie) : bool :=
  match tmdb_id m with
  | Some id => negb (is_empty id)
  | None => false
  end.

(** The ids of the GET requests of a log, and of its skipped folders. *)
Fixpoint fetches (events : list event) : list string :=
  match events with
  | [] => []
  | Fetch id :: events' => id :: fetches events'
  | _ :: events' => fetches events'
  end.

Fixpoint skips (events : list event) : list string :=
  match events with
  | [] => []
  | Skipped id :: events' => id :: skips events'
  | _ :: events' => skips events'
  end.

(** The folder flags of a record, as the three observations of its folder. *)
Definition flags_are (poster_exists : bool) (count : nat) (m : movie) : Prop :=
  poster m = Some poster_exists
  /\ screenshots m = Some (0 <? count)%nat
  /\ screenshot_count m = Some count.

(** The keys that the refresh does not write. *)
Definition same_data (a b : movie) : Prop :=
  tmdb_id a = tmdb_id b
  /\ challenge_id a = challenge_id b
  /\ details a = details b.

(** Every entry of the dict stands under the id of its record, and that id
    is not empty. *)
Definition keyed (d : dict) : Prop :=
  Forall (fun entry =>
            tmdb_id (snd entry) = Some (fst entry)
            /\ is_empty (fst entry) = false) d.

(** The entry that indexing makes of a record. *)
Definition entry_of (m : movie) : string * movie :=
  (match tmdb_id m with Some id => id | None => EmptyString end, m).

(** The record that [process_folder] returns for this answer, up to the
    two flags it reads off the folder. *)
Definition fetched_from (id : string) (data : response) (m : movie) : Prop :=
  tmdb_id m = tmdb_id (movie_data id data)
  /\ challenge_id m = Some EmptyString
  /\ details m = details (movie_data id data).

(** The request for this id fails. *)
Definition fails (http : string -> option response) (id : string) : bool :=
  match http id with
  | Some _ => false
  | None => true
  end.

(** What the refresh makes of one entry of the dict. *)
Definition refresh_entry (root : tree) (entry : string * movie) : string * movie :=
  (fst entry, fst (refresh root (fst entry) (snd entry))).

(** A list is in order when no element is smaller than an earlier one. *)
Definition ordered {A : Type} (less : A -> A -> result bool) (l : list A) : Prop :=
  StronglySorted (fun x y => less y x = Return false) l.

(** The sort key of the record is an int. *)
Definition numeric (m : movie) : bool :=
  match _key m with
  | VInt _ => true
  | VStr _ => false
  end.

(** The key of the first record is at most the key of the second: as
    numbers for two ints, by code point for two strs. *)
Definition key_le (a b : movie) : Prop :=
  match _key a, _key b with
  | VInt x, VInt y => (x <= y)%Z
  | VStr x, VStr y => String.leb x y = true
  | _, _ => False
  end.

(** A catalog record that has an id and nothing else. *)
Definition bare_movie (id : string) : movie :=
  mk_movie (Some id) None None None None
           (mk_info EmptyString [] EmptyString EmptyString EmptyString
                    EmptyString []).

End Spec.

(* ================================================================== *)
(** ** Sample runs *)
(* ================================================================== *)

Module Examples.

Import Fs DbMaker UpdateMovies Spec.

Definition answer (id title : string) : response :=
  mk_response (Some id) title EmptyString EmptyString [] [] [].

(** The request for 6 succeeds, every other request fails. *)
Definition only_six (id : string) : option response :=
  if String.eqb id "6" then Some (answer "6" "Six") else None.

Definition five_and_six : tree :=
  [("5", [mk_dirent "poster.jpg" true]);
   ("6", [mk_dirent "poster.jpg" true; mk_dirent "screenshot_1.jpg" true])].

(** No request succeeds. *)
Definition offline (id : string) : option response := None.

(** A record whose folder is gone: the catalog still says that it has a
    poster and three screenshots. *)
Definition stale : movie :=
  mk_movie (Some "7") (Some "c7") (Some true) (Some true) (Some 3)
           (details (bare_movie "7")).

(** A folder named after the IMDb id of a film: the remote takes that id
    and answers with the record of the film, whose id is 550. *)
Definition by_imdb_id (id : string) : option response :=
  if String.eqb id "tt0137523" then Some (answer "550" "Fight Club") else None.

Definition imdb_folder : tree := [("tt0137523", [mk_dirent "poster.jpg" true])].

End Examples.

(* ================================================================== *)
(** ** public_scripts/fetch_tmdb_assets.py: the targets of main *)
(* ================================================================== *)

Module FetchAssets.

(** A row of [scan]. *)
Record row : Type := mk_row {
  name : string;
  tmdb_id : option string;
  has_meta : bool;
  has_poster : bool;
  screenshot_count : nat
}.

(** [row[tmdb_id]] is truthy. *)
Definition has_id (r : row) : bool :=
  match tmdb_id r with
  | Some id => negb (is_empty id)
  | None => false
  end.

Inductive mode : Type :=
| Missing
| Ids.

(** The rows that [main] passes to [process_movie]; [ids] is [args.ids],
    [None] when the option is not given. *)
Definition targets (m : mode) (ids : option (list string))
    (posters_only screenshots_only : bool) (rows : list row) : list row :=
  match m with
  | Missing =>
      filter
        (fun r =>
           has_id r
           && ((negb (has_poster r) && negb screenshots_only)
               || ((screenshot_count r =? 0)%nat && negb posters_only)))
        rows
  | Ids =>
      let ids_set := match ids with Some l => l | None => [] end in
      filter
        (fun r =>
           has_id r
           && match tmdb_id r with
              | Some id => existsb (String.eqb id) ids_set
              | None => false
              end)
        rows
  end.

(** *** process_movie

    [images id] is what tmdb_images returns for the id, [None] when it
    raises; [download path] says whether the GET of an image succeeds.  The
    state is the listing of the movie folder; the log holds every download
    that was started, as the file path and the name it is written to. *)

Record assets : Type := mk_assets {
  posters : list string;
  backdrops : list string
}.

Inductive status : Type :=
| Skip
| Failed
| Done.

Inductive reason : Type :=
| NoReason
| NoTmdbId
| Images
| PosterDl
| ScreenDl.

Record report : Type := mk_report {
  status_of : status;
  reason_of : reason;
  poster_written : bool;
  screenshots_written : nat
}.

(** [folder.glob(screenshot*.jpg)] on a file system that tells upper case
    from lower case: files and directories alike. *)
Definition glob_screenshot (e : Fs.dirent) : bool :=
  startswith "screenshot" (Fs.d_name e)
  && endswith ".jpg" (Fs.d_name e)
  && (14 <=? String.length (Fs.d_name e))%nat.

(** [dest.write_bytes(content)]: fails on a directory of that name. *)
Definition write_bytes (dest : string) (entries : list Fs.dirent)
  : option (list Fs.dirent) :=
  if existsb (fun e => String.eqb (Fs.d_name e) dest && negb (Fs.d_is_file e))
             entries
  then None
  else if Fs.has_entry entries dest then Some entries
       else Some (entries ++ [Fs.mk_dirent dest true]).

Definition download_image (download : string -> bool) (file_path dest : string)
    (entries : list Fs.dirent) : option (list Fs.dirent) :=
  if download file_path then write_bytes dest entries else None.

Definition screenshot_name (idx : nat) : string :=
  ("screenshot_" ++ Normalizers.str_of_int (Z.of_nat idx) ++ ".jpg")%string.

(** The loop over the backdrops: whether it ran to its end, the listing, the
    number written and the log. *)
Fixpoint download_screens (download : string -> bool) (idx : nat)
    (paths : list string) (entries : list Fs.dirent) (written : nat)
    (log : list (string * string))
  : bool * list Fs.dirent * nat * list (string * string) :=
  match paths with
  | [] => (true, entries, written, log)
  | path :: paths' =>
      match download_image download path (screenshot_name idx) entries with
      | Some entries' =>
          download_screens download (S idx) paths' entries' (S written)
                           (log ++ [(path, screenshot_name idx)])
      | None => (false, entries, written, log ++ [(path, screenshot_name idx)])
      end
  end.

Definition process_movie (images : string -> option assets)
    (download : string -> bool) (r : row) (entries : list Fs.dirent)
    (limit : Z) (overwrite posters_only screens_only : bool)
  : report * list Fs.dirent * list (string * string) :=
  match tmdb_id r with
  | None => (mk_report Skip NoTmdbId false 0, entries, [])
  | Some id =>
      if is_empty id then (mk_report Skip NoTmdbId false 0, entries, [])
      else
        match images id with
        | None => (mk_report Failed Images false 0, entries, [])
        | Some found =>
            (* Posters *)
            let poster_step :=
              if negb screens_only
                 && (overwrite || negb (Fs.has_entry entries "poster.jpg"))
              then
                match posters found with
                | first :: _ =>
                    match download_image download first "poster.jpg" entries with
                    | Some entries' =>
                        (true, true, entries', [(first, "poster.jpg")])
                    | None => (false, false, entries, [(first, "poster.jpg")])
                    end
                | [] => (true, false, entries, [])
                end
              else (true, false, entries, []) in
            let '(fine, written_poster, entries1, log1) := poster_step in
            if negb fine then (mk_report Failed PosterDl false 0, entries1, log1)
            else
              (* Screenshots *)
              if negb posters_only
                 && (overwrite || negb (existsb glob_screenshot entries1))
              then
                let '(fine, entries2, written, log2) :=
                  download_screens download 1
                    (Report.slice_to limit (backdrops found)) entries1 0 log1 in
                if fine
                then (mk_report Done NoReason written_poster written, entries2, log2)
                else (mk_report Failed ScreenDl false 0, entries2, log2)
              else (mk_report Done NoReason written_poster 0, entries1, log1)
        end
  end.

End FetchAssets.

(* ================================================================== *)
(** ** bulkdatastuff/fetch_screenshots.py: fetch_for_ids *)
(* ================================================================== *)

Module FetchForIds.

Import Fs.

(** What a run does and logs, in order. *)
Inductive step : Type :=
| Skipping (id : string)
| Asking (id : string)
| NoBackdrops (id : string)
| Downloading (id path dest : string)
| Saved (n : nat) (id : string)
| FailedFor (id : string).

(** A name that the file system takes for one folder directly under the base
    directory: not empty, at most 255 bytes, not [.] or [..], without a
    separator or a NUL.  The tree below lists the folders of the base
    directory under such names. *)
Definition plain_name (id : string) : bool :=
  negb (is_empty id)
  && (String.length id <=? 255)%nat
  && negb (String.eqb id ".")
  && negb (String.eqb id "..")
  && str_forall (fun c => negb (is_char "/"%char c) && negb (is_char "000"%char c)) id.

(** ensure_folder: [mkdir(parents=True, exist_ok=True)], for a plain name. *)
Definition ensure_folder (root : tree) (id : string) : tree :=
  match folder root id with
  | Some _ => root
  | None => root ++ [(id, [])]
  end.

(** The listing of a folder after files were written into it. *)
Fixpoint put_folder (root : tree) (id : string) (entries : list dirent) : tree :=
  match root with
  | [] => []
  | (n, es) :: root' =>
      if String.eqb n id then (n, entries) :: root'
      else (n, es) :: put_folder root' id entries
  end.

(** The body of the loop for one id.  [backdrops id] is the list that
    fetch_backdrops has before it cuts it to the limit, [None] when the
    request or its decoding raises; the downloads are the loop of
    [FetchAssets.download_screens], which is the same loop over the same
    download_image.  Any exception ends the work on this id only. *)
Definition fetch_one (backdrops : string -> option (list string))
    (download : string -> bool) (limit : Z) (overwrite : bool)
    (root : tree) (id : string) : tree * list step :=
  let root1 := ensure_folder root id in
  let existing :=
    match folder root1 id with
    | Some es => es
    | None => []
    end in
  if existsb FetchAssets.glob_screenshot existing && negb overwrite
  then (root1, [Skipping id])
  else
    match backdrops id with
    | None => (root1, [Asking id; FailedFor id])
    | Some found =>
        match Report.slice_to limit found with
        | [] => (root1, [Asking id; NoBackdrops id])
        | paths =>
            let '(fine, entries', written, started) :=
              FetchAssets.download_screens download 1 paths existing 0 [] in
            (put_folder root1 id entries',
             Asking id
             :: map (fun d => Downloading id (fst d) (snd d)) started
             ++ [if fine then Saved (List.length paths) id else FailedFor id])
        end
    end.

Fixpoint fetch_for_ids (backdrops : string -> option (list string))
    (download : string -> bool) (tmdb_ids : list string) (limit : Z)
    (overwrite : bool) (root : tree) : tree * list step :=
  match tmdb_ids with
  | [] => (root, [])
  | id :: ids =>
      let '(root1, steps1) := fetch_one backdrops download limit overwrite root id in
      let '(root2, steps2) :=
        fetch_for_ids backdrops download ids limit overwrite root1 in
      (root2, steps1 ++ steps2)
  end.

(** The ids for which the list of backdrops was requested. *)
Fixpoint asked (steps : list step) : list string :=
  match steps with
  | [] => []
  | Asking id :: steps' => id :: asked steps'
  | _ :: steps' => asked steps'
  end.

(** The folder of the id holds a screenshot. *)
Definition has_screens (root : tree) (id : string) : bool :=
  match folder root id with
  | Some es => existsb FetchAssets.glob_screenshot es
  | None => false
  end.

End FetchForIds.

(* ================================================================== *)
(** ** public_scripts/report_assets.py: find_metadata_file and scan *)
(* ================================================================== *)

Module Scan.

(** An entry of a movie folder, with the lines of the file when it can be
    read; a directory cannot. *)
Record item : Type := mk_item {
  item_name : string;
  item_is_file : bool;
  item_lines : option (list string)
}.

(** [sorted(paths)] for paths of one directory, on a file system that tells
    upper case from lower case: by name, by code point. *)
Definition sorted_by {A : Type} (name_of : A -> string) (l : list A) : list A :=
  match sorted (fun a b => Return (String.ltb (name_of a) (name_of b))) l with
  | Return s => s
  | Raise _ => []
  end.

(** The names that the pattern [*_metadata.txt] matches. *)
Definition is_metadata (i : item) : bool :=
  endswith "_metadata.txt" (item_name i).

(** The names that the pattern [screenshot*.jpg] matches. *)
Definition is_screenshot (i : item) : bool :=
  startswith "screenshot" (item_name i)
  && endswith ".jpg" (item_name i)
  && (14 <=? String.length (item_name i))%nat.

Definition find_metadata_file (items : list item) : option item :=
  match sorted_by item_name (filter is_metadata items) with
  | first :: _ => Some first
  | [] => None
  end.

Definition scan_entry (entry : string * list item) : Report.row :=
  let meta_path := find_metadata_file (snd entry) in
  let tmdb_id :=
    match meta_path with
    | Some m => ReportAssets.parse_tmdb_id (item_name m) (item_lines m)
    | None => None
    end in
  Report.mk_row
    (fst entry)
    (match tmdb_id with Some id => id | None => EmptyString end)
    (match meta_path with Some _ => true | None => false end)
    (existsb (fun i => String.eqb (item_name i) "poster.jpg") (snd entry))
    (List.length (filter is_screenshot (snd entry))).

(** An entry of the root is a directory with its entries, or something
    else. *)
Definition directories (entries : list (string * option (list item)))
  : list (string * list item) :=
  flat_map (fun entry =>
              match snd entry with
              | Some items => [(fst entry, items)]
              | None => []
              end) entries.

Definition scan (root : list (string * option (list item))) : list Report.row :=
  map scan_entry (directories (sorted_by fst root)).

End Scan.

(* ================================================================== *)
(** ** More vocabulary *)
(* ================================================================== *)

Module Words.

Import Fs DbMaker UpdateMovies.

(** The id of the record fetched for a folder, when the request succeeds. *)
Definition answered_id (http : string -> option response) (id : string)
  : option string :=
  match http id with
  | Some data => tmdb_id (movie_data id data)
  | None => None
  end.

(** The billing order of the first member is at most that of the second, a
    missing order counting as infinity. *)
Definition order_le (a b : cast_member) : Prop :=
  match member_order a, member_order b with
  | Some x, Some y => (x <= y)%Z
  | None, Some _ => False
  | _, None => True
  end.

(** Any character but the comma. *)
Definition not_comma (c : ascii) : bool := negb (is_char "," c).

(** The request for this id succeeds. *)
Definition answers (http : string -> option response) (id : string) : bool :=
  match http id with
  | Some _ => true
  | None => false
  end.

End Words.

Import Fs DbMaker UpdateMovies ReportAssets Spec Examples.
Import Words.

(* ================================================================== *)
(** ** Strings *)
(* ================================================================== *)

Section StringFacts.

Variable p : ascii -> bool.

Lemma lstrip_by_first s :
  char_ok (fun c => negb (p c)) (first_char (lstrip_by p s)) = true.
Proof.
  induction s as [|c s IH]; simpl; [reflexivity|].
  destruct (p c) eqn:E; [exact IH|]. simpl. now rewrite E.
Qed.

Lemma rstrip_by_last s :
  char_ok (fun c => negb (p c)) (last_char (rstrip_by p s)) = true.
Proof.
  induction s as [|c s IH]; simpl; [reflexivity|].
  destruct (rstrip_by p s) as [|d r] eqn:E.
  - destruct (p c) eqn:Ec; simpl; [reflexivity|now rewrite Ec].
  - change (last_char (String c (String d r)))
      with (match last_char (String d r) with
            | None => Some c | Some e => Some e end).
    destruct (last_char (String d r)) eqn:El; [exact IH|].
    simpl in El. destruct (last_char r); discriminate.
Qed.

Lemma rstrip_by_first s :
  rstrip_by p s = EmptyString \/ first_char (rstrip_by p s) = first_char s.
Proof.
  destruct s as [|c s]; simpl; [now left|].
  destruct (rstrip_by p s); [destruct (p c)|]; auto.
Qed.

Lemma strip_by_ends s :
  char_ok (fun c => negb (p c)) (first_char (strip_by p s))
  && char_ok (fun c => negb (p c)) (last_char (strip_by p s)) = true.
Proof.
  unfold strip_by. rewrite rstrip_by_last, andb_true_r.
  destruct (rstrip_by_first (lstrip_by p s)) as [E|E]; rewrite E.
  - reflexivity.
  - apply lstrip_by_first.
Qed.

(** Stripping and splitting never bring in a character that was not
    there. *)
Variable q : ascii -> bool.

Lemma lstrip_by_exists s :
  str_exists q s = false -> str_exists q (lstrip_by p s) = false.
Proof.
  induction s as [|c s IH]; simpl; [auto|].
  intros H. apply orb_false_iff in H as [Hc Hs].
  destruct (p c); [auto|]. simpl. now rewrite Hc, Hs.
Qed.

Lemma rstrip_by_exists s :
  str_exists q s = false -> str_exists q (rstrip_by p s) = false.
Proof.
  induction s as [|c s IH]; simpl; [auto|].
  intros H. apply orb_false_iff in H as [Hc Hs]. specialize (IH Hs).
  destruct (rstrip_by p s) as [|d r].
  - destruct (p c); simpl; [reflexivity|now rewrite Hc].
  - change (q c || str_exists q (String d r) = false). now rewrite Hc, IH.
Qed.

Lemma strip_by_exists s :
  str_exists q s = false -> str_exists q (strip_by p s) = false.
Proof.
  intros H. unfold strip_by. now apply rstrip_by_exists, lstrip_by_exists.
Qed.

End StringFacts.

Lemma strip_trimmed s : trimmed (strip s) = true.
Proof. apply (strip_by_ends isspace). Qed.

Lemma split_on_pieces (q : ascii -> bool) s :
  Forall (fun piece => str_exists q piece = false) (split_on q s).
Proof.
  induction s as [|c s IH]; simpl.
  - repeat constructor.
  - destruct (q c) eqn:E.
    + constructor; [reflexivity|exact IH].
    + destruct (split_on q s) as [|w ws]; inversion IH; subst.
      * repeat constructor. simpl. now rewrite E.
      * constructor; [simpl; now rewrite E|assumption].
Qed.

Lemma split_on_cons (q : ascii -> bool) s : split_on q s <> [].
Proof.
  destruct s as [|c s]; simpl; [discriminate|].
  destruct (q c); [discriminate|]. destruct (split_on q s); discriminate.
Qed.

(* ================================================================== *)
(** ** db_maker.py: get_movie_initials *)
(* ================================================================== *)

Lemma all_some_defined {A : Type} (l : list (option A)) :
  Forall (fun o => o <> None) l -> all_some l <> None.
Proof.
  induction 1 as [|o l Ho _ IH]; simpl; [discriminate|].
  destruct o; [|congruence]. destruct (all_some l); congruence.
Qed.

(** A title without a colon is abbreviated by the first call. *)
Lemma get_movie_initials_at_segment n title :
  str_exists (is_char ":") title = false ->
  get_movie_initials_at (S n) title = get_movie_initials_at 1 title
  /\ get_movie_initials_at 1 title <> None.
Proof.
  intros H. simpl. rewrite H. destruct (is_empty title); split; congruence.
Qed.

Lemma strip_segment part :
  str_exists (is_char ":") part = false ->
  str_exists (is_char ":") (strip part) = false.
Proof. apply strip_by_exists. Qed.

(** Two nested calls are enough for every title: more depth gives the same
    result, and the result is defined. *)
Lemma get_movie_initials_total n title :
  get_movie_initials_at (S (S n)) title = get_movie_initials title
  /\ get_movie_initials title <> None.
Proof.
  unfold get_movie_initials.
  change (get_movie_initials_at (S (S n)) title) with
    (if is_empty title then Some EmptyString
     else
       if str_exists (is_char ":") title then
         option_map (join ":")
           (all_some
              (map (fun part => get_movie_initials_at (S n) (strip part))
                   (split_on (is_char ":") title)))
       else
         Some (join EmptyString
                 (map first_upper
                    (filter starts_alpha
                       (filter (fun word => negb (is_empty word))
                          (split_on (fun c => is_char " " c || is_char "-" c)
                                    title)))))).
  change (get_movie_initials_at 2 title) with
    (if is_empty title then Some EmptyString
     else
       if str_exists (is_char ":") title then
         option_map (join ":")
           (all_some
              (map (fun part => get_movie_initials_at 1 (strip part))
                   (split_on (is_char ":") title)))
       else
         Some (join EmptyString
                 (map first_upper
                    (filter starts_alpha
                       (filter (fun word => negb (is_empty word))
                          (split_on (fun c => is_char " " c || is_char "-" c)
                                    title)))))).
  destruct (is_empty title); [split; congruence|].
  destruct (str_exists (is_char ":") title); [|split; congruence].
  pose proof (split_on_pieces (is_char ":") title) as Hp.
  rewrite Forall_forall in Hp.
  assert (Hmap :
    map (fun part => get_movie_initials_at (S n) (strip part))
        (split_on (is_char ":") title)
    = map (fun part => get_movie_initials_at 1 (strip part))
          (split_on (is_char ":") title)).
  { apply map_ext_in. intros part Hin.
    apply get_movie_initials_at_segment, strip_segment, Hp, Hin. }
  rewrite Hmap. split; [reflexivity|].
  assert (Hd : all_some
                 (map (fun part => get_movie_initials_at 1 (strip part))
                      (split_on (is_char ":") title)) <> None).
  { apply all_some_defined, Forall_forall. intros o Ho.
    apply in_map_iff in Ho as (part & <- & Hin).
    apply (get_movie_initials_at_segment 0), strip_segment, Hp, Hin. }
  destruct (all_some _); simpl; congruence.
Qed.

(** C7.  On the title of the docstring, Pirates of the Caribbean: Dead Man's
    Chest, the function returns POTC:DMC: the first letter of every word is
    upper-cased, those of the two small words included, so the result is not
    the PotC:DMC that the docstring and the specification give. *)
Theorem get_movie_initials_pirates :
  get_movie_initials "Pirates of the Caribbean: Dead Man's Chest"
  = Some "POTC:DMC"
  /\ get_movie_initials "Pirates of the Caribbean: Dead Man's Chest"
     <> Some "PotC:DMC".
Proof. split; [reflexivity|]. vm_compute. discriminate. Qed.

(* ================================================================== *)
(** ** db_maker.py: clean_text *)
(* ================================================================== *)

Lemma join_empty_cons piece pieces :
  join EmptyString (piece :: pieces) = (piece ++ join EmptyString pieces)%string.
Proof.
  unfold join. destruct pieces as [|q qs]; simpl; [|reflexivity].
  induction piece as [|c piece IH]; simpl; congruence.
Qed.

Lemma kept_pieces_cons names skip s : kept_pieces names skip s <> [].
Proof.
  revert skip. induction s as [|c s IH]; intros skip; simpl; [discriminate|].
  destruct skip as [|k]; [|apply IH].
  destruct (match_here names (String c s)) as [[|k]|];
    try discriminate; destruct (kept_pieces names 0 s); discriminate.
Qed.

(** The result of the scan is its kept stretches put end to end. *)
Lemma kept_pieces_join names skip s :
  join EmptyString (kept_pieces names skip s) = re_sub_delete names skip s.
Proof.
  revert skip. induction s as [|c s IH]; intros skip; [reflexivity|].
  simpl. destruct skip as [|k]; [|apply IH].
  destruct (match_here names (String c s)) as [[|k]|].
  - rewrite <- IH. destruct (kept_pieces names 0 s) as [|p ps] eqn:E.
    + now apply kept_pieces_cons in E.
    + now rewrite !join_empty_cons.
  - rewrite join_empty_cons. apply IH.
  - rewrite <- IH. destruct (kept_pieces names 0 s) as [|p ps] eqn:E.
    + now apply kept_pieces_cons in E.
    + now rewrite !join_empty_cons.
Qed.

Lemma prefix_ci_app n piece tail :
  prefix_ci n piece = true -> prefix_ci n (piece ++ tail)%string = true.
Proof.
  revert piece. induction n as [|a n IH]; intros piece H; [reflexivity|].
  destruct piece as [|b piece]; simpl in *; [discriminate|].
  apply andb_true_iff in H as [Hc Hn]. now rewrite Hc, IH.
Qed.

Lemma match_alt_advances names s k :
  match_alt true names s = Some k -> k <> 0.
Proof.
  induction names as [|n ns IH]; simpl; [discriminate|].
  destruct (prefix_ci n s && negb (is_empty n)) eqn:E; [|exact IH].
  intros [= <-]. apply andb_true_iff in E as [_ E]. now destruct n.
Qed.

Lemma match_alt_none must names s n :
  match_alt must names s = None -> In n names ->
  prefix_ci n s && negb (must && is_empty n) = false.
Proof.
  induction names as [|n' ns IH]; simpl; [contradiction|].
  destruct (prefix_ci n' s && negb (must && is_empty n')) eqn:E; [discriminate|].
  intros H [->|Hin]; auto.
Qed.

(** Where the scan keeps a character, no non-empty name matches. *)
Lemma match_here_keeps names s n :
  (forall k, match_here names s <> Some (S k)) ->
  In n names -> is_empty n = false -> prefix_ci n s = false.
Proof.
  intros Hk Hin Hn. unfold match_here in Hk.
  destruct (match_alt false names s) as [[|k]|] eqn:E.
  - destruct (match_alt true names s) as [k|] eqn:E'.
    + destruct k as [|k]; [now apply match_alt_advances in E'|].
      now specialize (Hk k).
    + pose proof (match_alt_none _ _ _ _ E' Hin) as H.
      rewrite Hn in H. simpl in H. now rewrite andb_true_r in H.
  - now specialize (Hk k).
  - pose proof (match_alt_none _ _ _ _ E Hin) as H.
    simpl in H. now rewrite andb_true_r in H.
Qed.

Lemma free_of_empty names : free_of names EmptyString = true.
Proof.
  unfold free_of. apply forallb_forall. intros n _.
  destruct n; reflexivity.
Qed.

(** Every kept stretch is free of the names, and the first one is a prefix
    of the text when the scan is not inside a match. *)
Lemma kept_pieces_free names s :
  forall skip,
    forallb (free_of names) (kept_pieces names skip s) = true
    /\ (skip = 0 ->
        exists piece pieces tail,
          kept_pieces names 0 s = piece :: pieces /\ s = (piece ++ tail)%string).
Proof.
  induction s as [|c s IH]; intros skip.
  - simpl. rewrite free_of_empty. split; [reflexivity|].
    intros _. now exists EmptyString, [], EmptyString.
  - destruct skip as [|k].
    2:{ split; [apply (IH k)|discriminate]. }
    destruct (IH 0) as [Hfree Hhead].
    destruct (Hhead eq_refl) as (piece & pieces & tail & Hp & Hs).
    simpl. destruct (match_here names (String c s)) as [[|k]|] eqn:E.
    + rewrite Hp in *. simpl in Hfree. apply andb_true_iff in Hfree as [Hf Hfs].
      split.
      * simpl. rewrite Hfs, andb_true_r. unfold free_of in *.
        rewrite forallb_forall in *. intros n Hin. specialize (Hf n Hin).
        destruct (is_empty n) eqn:En; [reflexivity|]. simpl in *.
        rewrite negb_true_iff in *. rewrite Hf, orb_false_r.
        destruct (prefix_ci n (String c piece)) eqn:Ep; [|reflexivity].
        apply (prefix_ci_app _ _ tail) in Ep. simpl append in Ep.
        rewrite <- Hs in Ep.
        rewrite (match_here_keeps names (String c s) n) in Ep;
          [discriminate| |assumption|assumption].
        intros k. rewrite E. discriminate.
      * intros _. exists (String c piece), pieces, tail. now rewrite Hs.
    + split.
      * simpl. rewrite free_of_empty. apply (IH k).
      * intros _. now exists EmptyString, (kept_pieces names k s), (String c s).
    + rewrite Hp in *. simpl in Hfree. apply andb_true_iff in Hfree as [Hf Hfs].
      split.
      * simpl. rewrite Hfs, andb_true_r. unfold free_of in *.
        rewrite forallb_forall in *. intros n Hin. specialize (Hf n Hin).
        destruct (is_empty n) eqn:En; [reflexivity|]. simpl in *.
        rewrite negb_true_iff in *. rewrite Hf, orb_false_r.
        destruct (prefix_ci n (String c piece)) eqn:Ep; [|reflexivity].
        apply (prefix_ci_app _ _ tail) in Ep. simpl append in Ep.
        rewrite <- Hs in Ep.
        rewrite (match_here_keeps names (String c s) n) in Ep;
          [discriminate| |assumption|assumption].
        intros k. rewrite E. discriminate.
      * intros _. exists (String c piece), pieces, tail. now rewrite Hs.
Qed.

(** C9, as the code has it.  [clean_text] returns the text as it is when the
    text or the list of names is empty.  Otherwise it deletes the matches
    that one scan from left to right finds and strips the result: the result
    has no white space at either end, and each stretch of the text kept
    between two deletions is free of every non-empty listed name, ignoring
    case.  A name can remain only where a deletion joins its parts. *)
Theorem clean_text_single_pass (text : string) (names : list string) :
  clean_text text names =
    (if is_empty text || no_names names then text
     else strip (join EmptyString (kept_pieces names 0 text)))
  /\ forallb (free_of names) (kept_pieces names 0 text) = true
  /\ (is_empty text || no_names names || trimmed (clean_text text names)) = true.
Proof.
  unfold clean_text. rewrite kept_pieces_join. split; [reflexivity|].
  split; [apply (kept_pieces_free names text 0)|].
  destruct (is_empty text || no_names names); [reflexivity|].
  apply strip_trimmed.
Qed.

(** C9, as stated, fails: deleting the one match of Jane in JaJanene leaves
    Jane, although the text and the list of names are not empty. *)
Lemma clean_text_name_survives :
  is_empty "JaJanene" = false
  /\ In "Jane" ["Jane"]
  /\ clean_text "JaJanene" ["Jane"] = "Jane"
  /\ occurs_ci "Jane" (clean_text "JaJanene" ["Jane"]) = true.
Proof. repeat split; try reflexivity. now left. Qed.

(** The plot and the tagline of a fetched record are the overview and the
    tagline of the answer after [clean_text], with the six first cast names,
    the director and the title as the names. *)
Lemma movie_data_redacted id data :
  plot (details (movie_data id data))
  = clean_text (data_overview data)
      (top_cast (data_cast data)
       ++ [top_director (data_crew data); data_title data])
  /\ tagline (details (movie_data id data))
     = clean_text (data_tagline data)
         (top_cast (data_cast data)
          ++ [top_director (data_crew data); data_title data]).
Proof. split; reflexivity. Qed.

(* ================================================================== *)
(** ** parse_tmdb_id *)
(* ================================================================== *)

Lemma id_line_none lines :
  existsb gives_id lines = false -> id_line lines = None.
Proof.
  induction lines as [|line lines IH]; [reflexivity|].
  simpl. unfold gives_id at 1. intros H.
  apply orb_false_iff in H as [Hl Hs]. specialize (IH Hs).
  destruct (startswith "id:" (str_lower line)); [|exact IH].
  simpl in Hl. apply negb_false_iff in Hl. now rewrite Hl.
Qed.

Lemma id_line_not_empty lines id :
  id_line lines = Some id -> is_empty id = false.
Proof.
  induction lines as [|line lines IH]; simpl; [discriminate|].
  destruct (startswith "id:" (str_lower line)); [|exact IH].
  destruct (is_empty (strip (nth 1 (split_once (is_char ":") line) EmptyString)))
    eqn:E; [exact IH|].
  now intros [= <-].
Qed.

Lemma join_empty_filter pieces :
  join EmptyString (filter (fun run => negb (is_empty run)) pieces)
  = join EmptyString pieces.
Proof.
  induction pieces as [|piece pieces IH]; [reflexivity|].
  simpl filter. destruct piece as [|c piece]; simpl negb; cbv iota.
  - now rewrite join_empty_cons.
  - now rewrite !join_empty_cons, IH.
Qed.

(** The digits of a name, in order, are its runs of digits put end to end. *)
Lemma digit_runs_join name :
  join EmptyString (digit_runs name) = str_filter isdigit name.
Proof.
  unfold digit_runs. rewrite join_empty_filter.
  induction name as [|c name IH]; [reflexivity|].
  cbn [split_on str_filter]. destruct (isdigit c); cbn [negb].
  - destruct (split_on (fun c0 => negb (isdigit c0)) name) as [|w ws] eqn:E.
    + now apply split_on_cons in E.
    + rewrite join_empty_cons in *. cbn [append]. now rewrite IH.
  - rewrite join_empty_cons. exact IH.
Qed.

(** What the fallback of parse_tmdb_id computes.  When reading the metadata
    file fails or no line of it gives an id, the id is made of all the digit
    characters of the stem of the file name, in order: its runs of digits
    put end to end, and no id when the stem has no digit.  When the stem has
    one run of digits only, that run is the id. *)
Theorem parse_tmdb_id_fallback (name : string) (content : option (list string)) :
  (forall lines, content = Some lines -> existsb gives_id lines = false) ->
  parse_tmdb_id name content =
    (if is_empty (join EmptyString (digit_runs (path_stem name))) then None
     else Some (join EmptyString (digit_runs (path_stem name))))
  /\ (forall run, digit_runs (path_stem name) = [run] ->
      parse_tmdb_id name content = Some run).
Proof.
  intros H.
  assert (E : parse_tmdb_id name content = stem_digits name).
  { unfold parse_tmdb_id. destruct content as [lines|]; [|reflexivity].
    now rewrite (id_line_none lines (H lines eq_refl)). }
  rewrite E. unfold stem_digits. rewrite <- digit_runs_join.
  split; [reflexivity|].
  intros run Hrun. rewrite Hrun.
  assert (Hne : is_empty run = false).
  { assert (Hin : In run (digit_runs (path_stem name))) by (rewrite Hrun; now left).
    unfold digit_runs in Hin. apply filter_In in Hin as [_ Hin].
    now apply negb_true_iff in Hin. }
  unfold join. simpl. now rewrite Hne.
Qed.

Lemma parse_tmdb_id_fallback_witness :
  existsb gives_id ["title: Alien"; "id:   "] = false
  /\ parse_tmdb_id "33_metadata.txt" (Some ["title: Alien"; "id:   "])
     = Some "33".
Proof.
  split; [reflexivity|].
  refine (proj2 (parse_tmdb_id_fallback "33_metadata.txt"
                   (Some ["title: Alien"; "id:   "]) _) "33" _).
  - intros lines [= <-]. reflexivity.
  - reflexivity.
Defined.

(** C8: the fallback of parse_tmdb_id joins all the digits of the stem.  For
    the name 12_abc_345_metadata.txt, whether the file has no line that
    gives an id or cannot be read, the id returned is 12345: neither the
    longest run of digits, 345, that the specification asks for, nor the
    leading digits, 12, that the comment in the code announces. *)
Lemma parse_tmdb_id_joins_runs :
  existsb gives_id ["title: Alien"] = false
  /\ spec_longest_digit_run "12_abc_345_metadata.txt" = Some "345"
  /\ comment_leading_digits "12_abc_345_metadata.txt" = Some "12"
  /\ parse_tmdb_id "12_abc_345_metadata.txt" (Some ["title: Alien"])
     = Some "12345"
  /\ parse_tmdb_id "12_abc_345_metadata.txt" None = Some "12345".
Proof. repeat split; reflexivity. Qed.

(* ================================================================== *)
(** ** [sorted] *)
(* ================================================================== *)

Section SortedFacts.

Context {A : Type} (less : A -> A -> result bool).

Lemma insert_perm x l l' :
  insert less x l = Return l' -> Permutation (x :: l) l'.
Proof.
  revert l'. induction l as [|e l IH]; intros l'; simpl.
  - now intros [= <-].
  - destruct (less x e) as [err|[|]]; simpl; [discriminate| |].
    + now intros [= <-].
    + destruct (insert less x l) as [err|r]; simpl; [discriminate|].
      intros [= <-]. rewrite perm_swap. constructor. now apply IH.
Qed.

Lemma sorted_onto_perm l : forall acc out,
  sorted_onto less acc l = Return out -> Permutation (acc ++ l) out.
Proof.
  induction l as [|x l IH]; intros acc out; simpl.
  - intros [= <-]. now rewrite app_nil_r.
  - destruct (insert less x acc) as [err|acc'] eqn:E; simpl; [discriminate|].
    intros H. apply IH in H. rewrite <- H.
    apply insert_perm in E. rewrite <- E.
    rewrite <- Permutation_middle. reflexivity.
Qed.

Lemma sorted_perm l out : sorted less l = Return out -> Permutation l out.
Proof. apply (sorted_onto_perm l []). Qed.

(** An element that is smaller than none of the prefix goes to its end. *)
Lemma insert_last x acc :
  Forall (fun e => less x e = Return false) acc ->
  insert less x acc = Return (acc ++ [x]).
Proof.
  induction 1 as [|e acc He _ IH]; simpl; [reflexivity|].
  now rewrite He, IH.
Qed.

Lemma ordered_app_inv acc x l :
  ordered less (acc ++ x :: l) ->
  Forall (fun e => less x e = Return false) acc.
Proof.
  unfold ordered. induction acc as [|e acc IH]; simpl; intros H; [constructor|].
  apply StronglySorted_inv in H as [Hs Hf]. constructor; [|now apply IH].
  rewrite Forall_forall in Hf. apply Hf, in_elt.
Qed.

(** Sorting a list that is in order returns it as it is. *)
Lemma sorted_onto_fixed l : forall acc,
  ordered less (acc ++ l) -> sorted_onto less acc l = Return (acc ++ l).
Proof.
  induction l as [|x l IH]; intros acc H; simpl.
  - now rewrite app_nil_r.
  - rewrite (insert_last x acc) by now apply (ordered_app_inv acc x l).
    simpl. replace (acc ++ x :: l) with ((acc ++ [x]) ++ l) in *
      by now rewrite <- app_assoc.
    now apply IH.
Qed.

Hypothesis less_asym :
  forall a b, less a b = Return true -> less b a = Return false.
Hypothesis less_chain :
  forall x e y,
    less x e = Return true -> less y e = Return false -> less y x = Return false.

Lemma insert_ordered x l : forall l',
  ordered less l -> insert less x l = Return l' -> ordered less l'.
Proof.
  unfold ordered. induction l as [|e l IH]; intros l' Hs; simpl.
  - intros [= <-]. repeat constructor.
  - destruct (less x e) as [err|[|]] eqn:E; simpl; [discriminate| |].
    + intros [= <-]. constructor; [assumption|].
      apply StronglySorted_inv in Hs as [_ Hf].
      constructor; [now apply less_asym|].
      rewrite Forall_forall in *. intros y Hy.
      apply (less_chain x e y E), Hf, Hy.
    + destruct (insert less x l) as [err|r] eqn:Er; simpl; [discriminate|].
      intros [= <-]. apply StronglySorted_inv in Hs as [Hs Hf].
      constructor; [now apply IH|].
      apply insert_perm in Er. rewrite <- Er. now constructor.
Qed.

Lemma sorted_onto_ordered l : forall acc out,
  ordered less acc -> sorted_onto less acc l = Return out -> ordered less out.
Proof.
  induction l as [|x l IH]; intros acc out Hacc; simpl.
  - now intros [= <-].
  - destruct (insert less x acc) as [err|acc'] eqn:E; simpl; [discriminate|].
    apply IH. now apply (insert_ordered x acc).
Qed.

Lemma sorted_ordered l out : sorted less l = Return out -> ordered less out.
Proof. apply sorted_onto_ordered. constructor. Qed.

Lemma sorted_idem l out :
  sorted less l = Return out -> sorted less out = Return out.
Proof.
  intros H. apply sorted_ordered in H.
  now apply (sorted_onto_fixed out []).
Qed.

End SortedFacts.

(** *** The order of the keys *)

Lemma ltb_trans x y z :
  String.ltb x y = true -> String.ltb y z = true -> String.ltb x z = true.
Proof.
  unfold String.ltb. intros Hxy Hyz.
  destruct (String.compare x y) eqn:Exy; try discriminate.
  destruct (String.compare y z) eqn:Eyz; try discriminate.
  apply String_as_OT.cmp_lt in Exy, Eyz.
  pose proof (String_as_OT.lt_trans _ _ _ Exy Eyz) as H.
  apply String_as_OT.cmp_lt in H. unfold String_as_OT.cmp in H. now rewrite H.
Qed.

Lemma ltb_asym x y : String.ltb x y = true -> String.ltb y x = false.
Proof.
  unfold String.ltb. rewrite (String.compare_antisym x y).
  destruct (String.compare y x); simpl; congruence.
Qed.

Lemma lt_asym a b : lt a b = Return true -> lt b a = Return false.
Proof.
  destruct a as [x|x], b as [y|y]; simpl; try discriminate; intros [= H]; f_equal.
  - lia.
  - now apply ltb_asym.
Qed.

Lemma lt_chain x e y :
  lt x e = Return true -> lt y e = Return false -> lt y x = Return false.
Proof.
  destruct x as [x|x], e as [e|e], y as [y|y]; simpl; try discriminate;
    intros [= H1] [= H2]; f_equal.
  - lia.
  - destruct (String.ltb y x) eqn:E; [|reflexivity].
    now rewrite (ltb_trans y x e E H1) in H2.
Qed.

Lemma sort_movies_perm movies out :
  sort_movies movies = Return out -> Permutation movies out.
Proof. apply sorted_perm. Qed.

Lemma sort_movies_idem movies out :
  sort_movies movies = Return out -> sort_movies out = Return out.
Proof.
  apply sorted_idem; unfold key_lt; intros *.
  - apply lt_asym.
  - apply lt_chain.
Qed.

(** *** When the sort returns and when it raises *)

Section SortedRuns.

Context {A : Type} (less : A -> A -> result bool).

Lemma insert_returns x acc :
  (forall e, In e acc -> exists b, less x e = Return b) ->
  exists acc', insert less x acc = Return acc'.
Proof.
  induction acc as [|e acc IH]; intros H; simpl; [now eexists|].
  destruct (H e (or_introl eq_refl)) as [b ->]. simpl.
  destruct b; [now eexists|].
  destruct IH as [r ->]; [intros e' He'; apply H; now right|].
  simpl. now eexists.
Qed.

(** Elements that can all be compared with each other get sorted. *)
Lemma sorted_onto_returns l : forall acc,
  (forall x y, In x (acc ++ l) -> In y (acc ++ l) ->
               exists b, less x y = Return b) ->
  exists out, sorted_onto less acc l = Return out.
Proof.
  induction l as [|x l IH]; intros acc H; simpl; [now eexists|].
  destruct (insert_returns x acc) as [acc' E].
  { intros e He. apply H; rewrite in_app_iff; simpl; auto. }
  rewrite E. simpl. apply IH. intros a b Ha Hb.
  apply insert_perm in E.
  assert (Hsub : forall z, In z (acc' ++ l) -> In z (acc ++ x :: l)).
  { intros z Hz. rewrite in_app_iff in *. destruct Hz as [Hz|Hz].
    - apply (Permutation_in _ (Permutation_sym E)) in Hz.
      destruct Hz as [<-|Hz]; simpl; auto.
    - simpl. auto. }
  apply H; now apply Hsub.
Qed.

(** What was raised was raised by a comparison. *)
Lemma insert_raises x acc e :
  insert less x acc = Raise e -> exists y, less x y = Raise e.
Proof.
  induction acc as [|y acc IH]; simpl; [discriminate|].
  destruct (less x y) as [e'|[|]] eqn:E; simpl.
  - intros [= <-]. now exists y.
  - discriminate.
  - destruct (insert less x acc) as [e'|r]; simpl; [|discriminate].
    intros [= <-]. now apply IH.
Qed.

Lemma sorted_onto_raises l e : forall acc,
  sorted_onto less acc l = Raise e -> exists x y, less x y = Raise e.
Proof.
  induction l as [|x l IH]; intros acc; simpl; [discriminate|].
  destruct (insert less x acc) as [e'|acc'] eqn:E; simpl.
  - intros [= <-]. exists x. now apply (insert_raises x acc).
  - apply IH.
Qed.

(** Elements of a list that got sorted are all of one kind, for any notion
    of kind that two elements share whenever they can be compared. *)
Variable kind : A -> bool.
Hypothesis less_kind : forall x y b, less x y = Return b -> kind x = kind y.

Lemma insert_kind x acc acc' k :
  insert less x acc = Return acc' ->
  acc <> [] -> Forall (fun y => kind y = k) acc -> kind x = k.
Proof.
  destruct acc as [|e acc]; [congruence|]. simpl. intros H _ Hk.
  inversion Hk as [|? ? He _]; subst.
  destruct (less x e) as [err|b] eqn:E; [discriminate|].
  now apply less_kind in E.
Qed.

Lemma sorted_onto_kind l : forall acc out k,
  sorted_onto less acc l = Return out ->
  acc <> [] -> Forall (fun y => kind y = k) acc ->
  Forall (fun y => kind y = k) l.
Proof.
  induction l as [|x l IH]; intros acc out k; simpl; [constructor|].
  destruct (insert less x acc) as [err|acc'] eqn:E; simpl; [discriminate|].
  intros H Hne Hk.
  assert (Hx : kind x = k) by now apply (insert_kind x acc acc').
  constructor; [exact Hx|].
  apply (IH acc' out k H).
  - apply insert_perm in E. intros ->.
    now apply Permutation_sym, Permutation_nil in E.
  - apply insert_perm in E. rewrite Forall_forall in *. intros y Hy.
    apply (Permutation_in _ (Permutation_sym E)) in Hy.
    destruct Hy as [<-|Hy]; auto.
Qed.

Lemma sorted_kind l out a b :
  sorted less l = Return out -> In a l -> In b l -> kind a = kind b.
Proof.
  unfold sorted. destruct l as [|x l]; [contradiction|]. simpl.
  intros H Ha Hb.
  assert (Hk : Forall (fun y => kind y = kind x) l).
  { apply (sorted_onto_kind l [x] out (kind x) H); [discriminate|].
    now repeat constructor. }
  rewrite Forall_forall in Hk.
  assert (Hall : forall y, In y (x :: l) -> kind y = kind x).
  { intros y [<-|Hy]; [reflexivity|now apply Hk]. }
  now rewrite (Hall a Ha), (Hall b Hb).
Qed.

End SortedRuns.

Lemma StronglySorted_weaken {A : Type} (R R' : A -> A -> Prop) l :
  (forall a b, R a b -> R' a b) -> StronglySorted R l -> StronglySorted R' l.
Proof.
  intros H. induction 1 as [|a l _ IH Hf]; constructor; [exact IH|].
  rewrite Forall_forall in *. auto.
Qed.

Lemma key_lt_kind a b r : key_lt a b = Return r -> numeric a = numeric b.
Proof.
  unfold key_lt, numeric.
  destruct (_key a), (_key b); simpl; congruence.
Qed.

Lemma key_lt_returns a b :
  numeric a = numeric b -> exists r, key_lt a b = Return r.
Proof.
  unfold key_lt, numeric.
  destruct (_key a), (_key b); simpl; try discriminate; now eexists.
Qed.

Lemma key_lt_false_le a b : key_lt b a = Return false -> key_le a b.
Proof.
  unfold key_lt, key_le.
  destruct (_key a) as [x|x], (_key b) as [y|y]; simpl;
    try discriminate; intros [= H].
  - lia.
  - unfold String.ltb, String.leb in *.
    rewrite (String.compare_antisym x y).
    destruct (String.compare y x); simpl in *; congruence.
Qed.

(** A catalog whose ids all parse as integers, or of which none does, gets
    sorted: the output holds the same records, ascending by number in the
    first case and by code point in the second. *)
Lemma sort_movies_one_kind movies :
  (forall a b, In a movies -> In b movies -> numeric a = numeric b) ->
  exists out,
    sort_movies movies = Return out
    /\ Permutation movies out
    /\ StronglySorted key_le out.
Proof.
  intros Hk.
  destruct (sorted_onto_returns key_lt movies []) as [out Hs].
  { simpl. intros a b Ha Hb. now apply key_lt_returns, Hk. }
  exists out. split; [exact Hs|]. split; [now apply sort_movies_perm|].
  apply (StronglySorted_weaken (fun x y => key_lt y x = Return false)).
  - intros a b. apply key_lt_false_le.
  - refine (sorted_ordered key_lt _ _ movies out Hs); unfold key_lt; intros *.
    + apply lt_asym.
    + apply lt_chain.
Qed.

Lemma sort_movies_one_kind_witness :
  (forall a b,
      In a [bare_movie "10"; bare_movie "2"; bare_movie "1"] ->
      In b [bare_movie "10"; bare_movie "2"; bare_movie "1"] ->
      numeric a = numeric b)
  /\ exists out,
       sort_movies [bare_movie "10"; bare_movie "2"; bare_movie "1"]
       = Return out
       /\ Permutation [bare_movie "10"; bare_movie "2"; bare_movie "1"] out
       /\ StronglySorted key_le out.
Proof.
  assert (H : forall a b,
             In a [bare_movie "10"; bare_movie "2"; bare_movie "1"] ->
             In b [bare_movie "10"; bare_movie "2"; bare_movie "1"] ->
             numeric a = numeric b).
  { simpl. intros a b [<-|[<-|[<-|[]]]] [<-|[<-|[<-|[]]]]; reflexivity. }
  split; [exact H|]. exact (sort_movies_one_kind _ H).
Defined.

(** A catalog that holds a record whose id parses as an integer and a record
    whose id does not is not sorted: the sort raises TypeError. *)
Lemma sort_movies_mixed_raises movies a b :
  In a movies -> In b movies -> numeric a = true -> numeric b = false ->
  sort_movies movies = Raise TypeError.
Proof.
  intros Ha Hb Hna Hnb. unfold sort_movies.
  destruct (sorted key_lt movies) as [e|out] eqn:Hs.
  - apply sorted_onto_raises in Hs as (x & y & H). unfold key_lt in H.
    destruct (_key x), (_key y); simpl in H; congruence.
  - pose proof (sorted_kind key_lt numeric key_lt_kind movies out a b Hs Ha Hb).
    congruence.
Qed.

Lemma sort_movies_mixed_raises_witness :
  In (bare_movie "2") [bare_movie "abc"; bare_movie "2"]
  /\ In (bare_movie "abc") [bare_movie "abc"; bare_movie "2"]
  /\ numeric (bare_movie "2") = true
  /\ numeric (bare_movie "abc") = false
  /\ sort_movies [bare_movie "abc"; bare_movie "2"] = Raise TypeError.
Proof.
  assert (H2 : In (bare_movie "2") [bare_movie "abc"; bare_movie "2"])
    by (right; now left).
  assert (Ha : In (bare_movie "abc") [bare_movie "abc"; bare_movie "2"])
    by now left.
  split; [exact H2|]. split; [exact Ha|].
  split; [reflexivity|]. split; [reflexivity|].
  exact (sort_movies_mixed_raises _ _ _ H2 Ha eq_refl eq_refl).
Defined.

(** C1.  For the ids 10, 2, abc, 1 of the specification the sort does not
    return: the key of abc is a str, the keys of the others are ints, and
    comparing them raises TypeError.  The order 1, 2, 10, abc is not
    produced. *)
Theorem sort_movies_mixed_ids_raise :
  sort_movies [bare_movie "10"; bare_movie "2"; bare_movie "abc"; bare_movie "1"]
  = Raise TypeError.
Proof. reflexivity. Qed.

(* ================================================================== *)
(** ** The folder tree *)
(* ================================================================== *)

Lemma folder_scan root id :
  In id (scan_movie_folders root) <-> folder root id <> None.
Proof.
  unfold scan_movie_folders.
  induction root as [|[n es] root IH]; simpl; [tauto|].
  destruct (String.eqb_spec n id) as [->|Hne].
  - split; [discriminate|auto].
  - rewrite <- IH. split; [intros [H|H]; [contradiction|exact H]|auto].
Qed.

Lemma folder_unlink root id name k :
  folder (unlink root id name) k =
    if String.eqb id k then option_map (remove_file name) (folder root k)
    else folder root k.
Proof.
  induction root as [|[n es] root IH]; simpl.
  - now destruct (String.eqb id k).
  - destruct (String.eqb_spec n id) as [->|Hne]; simpl.
    + now destruct (String.eqb id k).
    + rewrite IH. destruct (String.eqb_spec n k) as [->|Hnk]; [|reflexivity].
      destruct (String.eqb_spec id k) as [->|_]; [contradiction|reflexivity].
Qed.

Lemma scan_unlink root id name :
  scan_movie_folders (unlink root id name) = scan_movie_folders root.
Proof.
  unfold scan_movie_folders.
  induction root as [|[n es] root IH]; simpl; [reflexivity|].
  destruct (String.eqb n id); simpl; congruence.
Qed.

(** Removing metadata.txt changes neither the poster nor the screenshots. *)
Lemma remove_metadata_poster es :
  has_entry (remove_file "metadata.txt" es) "poster.jpg"
  = has_entry es "poster.jpg".
Proof.
  unfold has_entry, remove_file.
  induction es as [|e es IH]; simpl; [reflexivity|].
  destruct (String.eqb_spec (d_name e) "metadata.txt") as [E|_]; simpl.
  - destruct (d_is_file e); simpl; rewrite IH, E; reflexivity.
  - now rewrite IH.
Qed.

Lemma remove_metadata_screenshots es :
  filter is_screenshot_file (remove_file "metadata.txt" es)
  = filter is_screenshot_file es.
Proof.
  unfold remove_file.
  induction es as [|e es IH]; simpl; [reflexivity|].
  destruct (String.eqb_spec (d_name e) "metadata.txt") as [E|_]; simpl.
  - assert (Hno : is_screenshot_file e = false).
    { unfold is_screenshot_file. rewrite E. apply andb_false_r. }
    rewrite Hno. destruct (d_is_file e); simpl; [exact IH|].
    now rewrite Hno, IH.
  - now rewrite IH.
Qed.

Lemma same_view_refl root : same_view root root.
Proof. split; [reflexivity|intros id; split; reflexivity]. Qed.

Lemma same_view_sym a b : same_view a b -> same_view b a.
Proof.
  intros [Hs Ho]. split; [now symmetry|].
  intros id. destruct (Ho id). split; now symmetry.
Qed.

Lemma same_view_trans a b c : same_view a b -> same_view b c -> same_view a c.
Proof.
  intros [Hs1 Ho1] [Hs2 Ho2]. split; [congruence|].
  intros id. destruct (Ho1 id), (Ho2 id). split; congruence.
Qed.

Lemma unlink_same_view root id :
  same_view root (unlink root id "metadata.txt").
Proof.
  split; [now rewrite scan_unlink|].
  intros k. unfold path_exists, count_screenshots. rewrite folder_unlink.
  destruct (String.eqb id k); [|split; reflexivity].
  destruct (folder root k) as [es|]; simpl; [|split; reflexivity].
  now rewrite remove_metadata_poster, remove_metadata_screenshots.
Qed.

Lemma same_view_scan a b id :
  same_view a b ->
  In id (scan_movie_folders a) <-> In id (scan_movie_folders b).
Proof. intros [-> _]. reflexivity. Qed.

(* ================================================================== *)
(** ** The dict [movies_by_id] *)
(* ================================================================== *)

Lemma dict_get_set_same k v d : dict_get k (dict_set k v d) = Some v.
Proof.
  induction d as [|[k' v'] d IH]; simpl.
  - now rewrite String.eqb_refl.
  - destruct (String.eqb k' k) eqn:E; simpl; now rewrite E.
Qed.

Lemma dict_get_set_other k k' v d :
  k <> k' -> dict_get k' (dict_set k v d) = dict_get k' d.
Proof.
  intros Hne. induction d as [|[k0 v0] d IH]; simpl.
  - now apply String.eqb_neq in Hne as ->.
  - destruct (String.eqb_spec k0 k) as [->|Hk]; simpl.
    + now apply String.eqb_neq in Hne as ->.
    + now rewrite IH.
Qed.

Lemma dict_mem_keys k d : dict_mem k d = true <-> In k (dict_keys d).
Proof.
  unfold dict_mem, dict_keys. induction d as [|[k' v] d IH]; simpl.
  - split; [discriminate|contradiction].
  - destruct (String.eqb_spec k' k) as [->|Hne].
    + split; auto.
    + rewrite IH. split; [auto|intros [H|H]; [contradiction|exact H]].
Qed.

Lemma dict_mem_false k d : dict_mem k d = false <-> ~ In k (dict_keys d).
Proof.
  rewrite <- dict_mem_keys. destruct (dict_mem k d); split; congruence.
Qed.

Lemma dict_mem_get k d : dict_mem k d = false <-> dict_get k d = None.
Proof. unfold dict_mem. destruct (dict_get k d); split; congruence. Qed.

Lemma dict_set_fresh k v d : dict_mem k d = false -> dict_set k v d = d ++ [(k, v)].
Proof.
  unfold dict_mem. induction d as [|[k' v'] d IH]; simpl; [reflexivity|].
  destruct (String.eqb k' k); [discriminate|]. intros H. now rewrite IH.
Qed.

Lemma dict_keys_set k v d :
  dict_keys (dict_set k v d)
  = if dict_mem k d then dict_keys d else dict_keys d ++ [k].
Proof.
  unfold dict_mem, dict_keys. induction d as [|[k' v'] d IH]; simpl; [reflexivity|].
  destruct (String.eqb k' k); simpl; [reflexivity|].
  rewrite IH. now destruct (dict_get k d).
Qed.

Lemma dict_set_nodup k v d :
  NoDup (dict_keys d) -> NoDup (dict_keys (dict_set k v d)).
Proof.
  intros H. rewrite dict_keys_set. destruct (dict_mem k d) eqn:E; [exact H|].
  apply dict_mem_false in E. apply NoDup_app; auto.
  - repeat constructor. intros [].
  - intros x Hx [<-|[]]. contradiction.
Qed.

Lemma dict_get_in k m d : dict_get k d = Some m -> In (k, m) d.
Proof.
  induction d as [|[k' v] d IH]; simpl; [discriminate|].
  destruct (String.eqb_spec k' k) as [->|_]; [intros [= ->]; now left|auto].
Qed.

Lemma dict_in_get k m d :
  NoDup (dict_keys d) -> In (k, m) d -> dict_get k d = Some m.
Proof.
  unfold dict_keys. induction d as [|[k' v] d IH]; simpl; [contradiction|].
  intros Hnd [[= -> ->]|Hin].
  - now rewrite String.eqb_refl.
  - apply NoDup_cons_iff in Hnd as [Hk Hnd].
    destruct (String.eqb_spec k' k) as [->|_]; [|now apply IH].
    exfalso. apply Hk. change k with (fst (k, m)). now apply in_map.
Qed.

Lemma dict_values_in m d :
  In m (dict_values d) <-> exists k, In (k, m) d.
Proof.
  unfold dict_values. rewrite in_map_iff. split.
  - intros ([k v] & <- & H). now exists k.
  - intros [k H]. now exists (k, m).
Qed.

(* ================================================================== *)
(** ** update_movies.py: update_existing_flags *)
(* ================================================================== *)

(** Whatever the record held, the refresh leaves the three observations of
    the folder in it. *)
Lemma refresh_flags root id m :
  flags_are (path_exists root id "poster.jpg") (count_screenshots root id)
            (fst (refresh root id m)).
Proof.
  unfold refresh, flags_are, flag_differs.
  destruct m as [i c [p|] [s|] n d]; simpl;
    repeat match goal with
           | |- context [Bool.eqb ?a ?b] =>
               destruct (Bool.eqb_spec a b); subst; simpl
           end; auto.
Qed.

(** The refresh writes no other key. *)
Lemma refresh_data root id m : same_data m (fst (refresh root id m)).
Proof.
  unfold refresh, same_data. destruct m as [i c p s n d]; simpl.
  repeat match goal with
         | |- context [if ?b then _ else _] => destruct b
         end; simpl; auto.
Qed.

(** A record that holds the observations already is returned as it is. *)
Lemma refresh_fixed root id m :
  flags_are (path_exists root id "poster.jpg") (count_screenshots root id) m ->
  refresh root id m = (m, false).
Proof.
  unfold refresh, flags_are, flag_differs.
  destruct m as [i c p s n d]; simpl. intros (-> & -> & ->).
  rewrite Bool.eqb_reflx. simpl. rewrite Bool.eqb_reflx. reflexivity.
Qed.

Lemma refresh_view a b id m : same_view a b -> refresh a id m = refresh b id m.
Proof.
  intros [_ H]. destruct (H id) as [Hp Hc]. unfold refresh. now rewrite Hp, Hc.
Qed.

Lemma update_existing_flags_map d root :
  fst (update_existing_flags d root) = map (refresh_entry root) d.
Proof.
  induction d as [|[k m] d IH]; simpl; [reflexivity|].
  unfold refresh_entry at 1. simpl.
  destruct (refresh root k m) as [m' changed].
  destruct (update_existing_flags d root) as [d' updated]. simpl in *.
  now rewrite IH.
Qed.

Lemma refresh_entries_keys root d :
  dict_keys (map (refresh_entry root) d) = dict_keys d.
Proof. unfold dict_keys. rewrite map_map. reflexivity. Qed.

Lemma refresh_entries_get root k d :
  dict_get k (map (refresh_entry root) d)
  = option_map (fun m => fst (refresh root k m)) (dict_get k d).
Proof.
  induction d as [|[k' m] d IH]; simpl; [reflexivity|].
  destruct (String.eqb_spec k' k) as [->|_]; [reflexivity|exact IH].
Qed.

Lemma update_existing_flags_fixed d root :
  Forall (fun entry =>
            flags_are (path_exists root (fst entry) "poster.jpg")
                      (count_screenshots root (fst entry)) (snd entry)) d ->
  update_existing_flags d root = (d, 0).
Proof.
  induction 1 as [|[k m] d Hm _ IH]; simpl; [reflexivity|].
  simpl in Hm. now rewrite (refresh_fixed root k m Hm), IH.
Qed.

(* ================================================================== *)
(** ** update_movies.py: indexing the catalog *)
(* ================================================================== *)

Lemma index_movie_get k d m :
  dict_get k (index_movie d m)
  = if negb (is_empty k) && has_id k m then Some m else dict_get k d.
Proof.
  unfold index_movie, has_id. destruct (tmdb_id m) as [i|].
  2:{ now rewrite andb_false_r. }
  destruct (is_empty i) eqn:Ei.
  - destruct i; [|discriminate]. destruct k; reflexivity.
  - destruct (String.eqb_spec i k) as [<-|Hne].
    + rewrite Ei. simpl. apply dict_get_set_same.
    + rewrite andb_false_r. now apply dict_get_set_other.
Qed.

Lemma index_fold_get k catalog : forall d,
  dict_get k (fold_left index_movie catalog d)
  = match last_with_id k catalog with
    | Some m => Some m
    | None => dict_get k d
    end.
Proof.
  unfold last_with_id.
  induction catalog as [|m catalog IH] using rev_ind; intros d.
  - simpl. now destruct (is_empty k).
  - rewrite fold_left_app, rev_app_distr. simpl fold_left. simpl rev.
    rewrite index_movie_get, IH. simpl find.
    destruct (is_empty k); simpl; [reflexivity|].
    now destruct (has_id k m).
Qed.

(** A record without an id, or with an empty one, is not indexed; of the
    records that share an id the last one is. *)
Lemma index_existing_get k catalog :
  dict_get k (index_existing catalog) = last_with_id k catalog.
Proof.
  unfold index_existing. rewrite index_fold_get.
  now destruct (last_with_id k catalog).
Qed.

Lemma index_movie_nodup d m :
  NoDup (dict_keys d) -> NoDup (dict_keys (index_movie d m)).
Proof.
  unfold index_movie. destruct (tmdb_id m) as [i|]; [|auto].
  destruct (is_empty i); [auto|apply dict_set_nodup].
Qed.

Lemma dict_set_keyed k m d :
  tmdb_id m = Some k -> is_empty k = false -> keyed d -> keyed (dict_set k m d).
Proof.
  unfold keyed. intros Hm Hk. induction 1 as [|[k' v] d He Hd IH]; simpl.
  - repeat constructor; assumption.
  - destruct (String.eqb_spec k' k) as [->|_]; constructor; auto.
Qed.

Lemma index_movie_keyed d m : keyed d -> keyed (index_movie d m).
Proof.
  unfold index_movie. destruct (tmdb_id m) as [i|] eqn:E; [|auto].
  destruct (is_empty i) eqn:Ei; [auto|now apply dict_set_keyed].
Qed.

Lemma index_existing_wf catalog :
  NoDup (dict_keys (index_existing catalog)) /\ keyed (index_existing catalog).
Proof.
  unfold index_existing.
  assert (H : forall d, NoDup (dict_keys d) /\ keyed d ->
              NoDup (dict_keys (fold_left index_movie catalog d))
              /\ keyed (fold_left index_movie catalog d)).
  { induction catalog as [|m catalog IH]; intros d [Hn Hk]; simpl; [auto|].
    apply IH. split; [now apply index_movie_nodup|now apply index_movie_keyed]. }
  apply H. split; constructor.
Qed.

(** A catalog whose records all have an id, no two the same, is indexed
    record by record, in its order. *)
Lemma index_fold_entries catalog : forall d,
  Forall (fun m => identified m = true) catalog ->
  NoDup (map tmdb_id catalog) ->
  (forall m, In m catalog -> dict_mem (fst (entry_of m)) d = false) ->
  fold_left index_movie catalog d = d ++ map entry_of catalog.
Proof.
  induction catalog as [|m catalog IH]; intros d Hid Hnd Hfresh; simpl.
  - now rewrite app_nil_r.
  - inversion Hid as [|? ? Hm Hid']; subst.
    apply NoDup_cons_iff in Hnd as [Hm' Hnd'].
    assert (E : index_movie d m = d ++ [entry_of m]).
    { specialize (Hfresh m (or_introl eq_refl)).
      unfold index_movie, entry_of, identified in *.
      destruct (tmdb_id m) as [i|]; [|discriminate].
      apply negb_true_iff in Hm. rewrite Hm. now apply dict_set_fresh. }
    rewrite E, IH; auto.
    + now rewrite <- app_assoc.
    + intros m2 Hin. apply dict_mem_false. unfold dict_keys.
      rewrite map_app, in_app_iff. intros [H|H].
      * apply dict_mem_keys in H. rewrite Hfresh in H; [discriminate|now right].
      * destruct H as [H|[]]. apply Hm'. rewrite Forall_forall in Hid'.
        pose proof (Hid' m2 Hin) as H2. unfold identified, entry_of in *.
        simpl in H. destruct (tmdb_id m) as [i|] eqn:Ei; [|discriminate].
        destruct (tmdb_id m2) as [i2|] eqn:Ei2; [|discriminate].
        subst. rewrite <- Ei2. now apply in_map.
Qed.

Lemma index_existing_entries catalog :
  Forall (fun m => identified m = true) catalog ->
  NoDup (map tmdb_id catalog) ->
  index_existing catalog = map entry_of catalog.
Proof.
  intros Hid Hnd. unfold index_existing.
  now rewrite (index_fold_entries catalog []).
Qed.

(* ================================================================== *)
(** ** db_maker.py: process_folder *)
(* ================================================================== *)

Lemma fetches_app a b : fetches (a ++ b) = fetches a ++ fetches b.
Proof.
  induction a as [|e a IH]; [reflexivity|].
  destruct e; simpl; now rewrite IH.
Qed.

Lemma skips_app a b : skips (a ++ b) = skips a ++ skips b.
Proof.
  induction a as [|e a IH]; [reflexivity|].
  destruct e; simpl; now rewrite IH.
Qed.

(** For a folder of the tree [process_folder] returns.  It makes one request,
    leaves the view of the tree as it was, and gives a record exactly when
    the request succeeds. *)
Lemma process_folder_spec http root id :
  In id (scan_movie_folders root) ->
  exists fetched root' evs,
    process_folder http root id = Return (fetched, root', evs)
    /\ same_view root root'
    /\ fetches evs = [id]
    /\ skips evs = []
    /\ match http id with
       | Some data => exists m, fetched = Some m /\ fetched_from id data m
       | None => fetched = None
       end.
Proof.
  intros Hin. apply folder_scan in Hin.
  unfold process_folder. destruct (folder root id) as [es|]; [|contradiction].
  assert (Hdel : exists root' deleted,
             delete_metadata root id es = (root', deleted)
             /\ same_view root root'
             /\ fetches deleted = [] /\ skips deleted = []).
  { unfold delete_metadata. destruct (has_entry es "metadata.txt").
    - destruct (existsb _ es).
      + eexists _, _. split; [reflexivity|].
        split; [apply unlink_same_view|split; reflexivity].
      + eexists _, _. split; [reflexivity|].
        split; [apply same_view_refl|split; reflexivity].
    - eexists _, _. split; [reflexivity|].
      split; [apply same_view_refl|split; reflexivity]. }
  destruct Hdel as (root' & deleted & -> & Hv & Hf & Hs).
  unfold fetch_movie_data. destruct (http id) as [data|].
  - eexists _, root', _. split; [reflexivity|]. split; [exact Hv|].
    split; [simpl; rewrite fetches_app, Hf; reflexivity|].
    split; [simpl; rewrite skips_app, Hs; reflexivity|].
    eexists. split; [reflexivity|]. repeat split.
  - eexists None, root', _. split; [reflexivity|]. split; [exact Hv|].
    split; [simpl; rewrite fetches_app, Hf; reflexivity|].
    split; [simpl; rewrite skips_app, Hs; reflexivity|reflexivity].
Qed.

(* ================================================================== *)
(** ** update_movies.py: the loop over the new ids *)
(* ================================================================== *)

Lemma add_new_spec http ids : forall st,
  (forall id, In id ids -> In id (scan_movie_folders (disk st))) ->
  exists st',
    add_new http ids st = Return st'
    /\ same_view (disk st) (disk st')
    /\ fetches (log st') = fetches (log st) ++ ids
    /\ skips (log st') = skips (log st) ++ filter (fails http) ids
    /\ (forall k, ~ In k ids \/ http k = None ->
        dict_get k (movies_by_id st') = dict_get k (movies_by_id st))
    /\ (forall k data, In k ids -> http k = Some data ->
        exists m, dict_get k (movies_by_id st') = Some m /\ fetched_from k data m)
    /\ (NoDup (dict_keys (movies_by_id st)) ->
        NoDup (dict_keys (movies_by_id st')))
    /\ ((forall id, In id ids -> http id = None) ->
        movies_by_id st' = movies_by_id st /\ added st' = added st)
    /\ (echoes http -> (forall id, In id ids -> is_empty id = false) ->
        keyed (movies_by_id st) -> keyed (movies_by_id st')).
Proof.
  induction ids as [|id ids IH]; intros st Hscan.
  - exists st. simpl. rewrite !app_nil_r.
    repeat split; auto. intros k data [].
  - destruct (process_folder_spec http (disk st) id)
      as (fetched & root' & evs & Hp & Hv & Hf & Hs & Hh);
      [apply Hscan; now left|].
    cbn [add_new]. rewrite Hp. cbn [bind].
    destruct (http id) as [data|] eqn:Eh.
    + destruct Hh as (m & -> & Hm).
      match goal with
      | |- context [add_new http ids ?s] => destruct (IH s) as
            (st' & Hr & Hv' & Hf' & Hs' & Hkeep & Hnew & Hnd & Hfail & Hkey)
      end.
      { simpl. intros i Hi. apply (same_view_scan _ _ i Hv), Hscan. now right. }
      simpl in *. exists st'. split; [exact Hr|].
      split; [now apply (same_view_trans _ root')|].
      split; [rewrite Hf', fetches_app, Hf, <- app_assoc; reflexivity|].
      split.
      { rewrite Hs', skips_app, Hs, app_nil_r. unfold fails at 2.
        now rewrite Eh. }
      split.
      { intros k Hk. rewrite Hkeep by tauto.
        apply dict_get_set_other. intros ->. destruct Hk as [Hk|Hk].
        - apply Hk. now left.
        - congruence. }
      split.
      { intros k data' [<-|Hk] Hd.
        - destruct (in_dec string_dec id ids) as [Hi|Hi]; [now apply Hnew|].
          exists m. rewrite Hkeep by tauto. rewrite dict_get_set_same.
          split; [reflexivity|]. congruence.
        - now apply Hnew. }
      split; [intros H; now apply Hnd, dict_set_nodup|].
      split.
      { intros H. rewrite (H id) in Eh; [discriminate|now left]. }
      intros He Hne Hk. apply Hkey; auto.
      apply dict_set_keyed; auto.
      destruct Hm as (-> & _ & _). now apply He.
    + subst fetched.
      match goal with
      | |- context [add_new http ids ?s] => destruct (IH s) as
            (st' & Hr & Hv' & Hf' & Hs' & Hkeep & Hnew & Hnd & Hfail & Hkey)
      end.
      { simpl. intros i Hi. apply (same_view_scan _ _ i Hv), Hscan. now right. }
      simpl in *. exists st'. split; [exact Hr|].
      split; [now apply (same_view_trans _ root')|].
      split.
      { rewrite Hf', !fetches_app, Hf. simpl. rewrite <- app_assoc.
        reflexivity. }
      split.
      { rewrite Hs', !skips_app, Hs. unfold fails at 2. rewrite Eh.
        simpl. rewrite <- app_assoc. reflexivity. }
      split.
      { intros k Hk. apply Hkeep. destruct Hk as [Hk|Hk]; [left|now right].
        intros Hi. apply Hk. now right. }
      split.
      { intros k data' [<-|Hk] Hd; [congruence|now apply Hnew]. }
      split; [exact Hnd|].
      split; [intros H; apply Hfail; auto|].
      intros He Hne Hk. apply Hkey; auto.
Qed.

(* ================================================================== *)
(** ** update_movies.py: main *)
(* ================================================================== *)

Lemma refresh_entries_view a b d :
  same_view a b -> map (refresh_entry a) d = map (refresh_entry b) d.
Proof.
  intros Hv. apply map_ext. intros [k m]. unfold refresh_entry. simpl.
  now rewrite (refresh_view a b k m Hv).
Qed.

Lemma new_folder_ids_in d folder_ids id :
  In id (new_folder_ids d folder_ids)
  <-> In id folder_ids /\ dict_get id d = None.
Proof.
  unfold new_folder_ids. rewrite filter_In, negb_true_iff, dict_mem_get.
  reflexivity.
Qed.

(** What one run makes of the catalog, before the sort.  The loop and the
    refresh always return; [d] is the dict they leave. *)
Lemma merge_spec http root existing :
  exists d refreshed st,
    merge http root existing = Return (d, refreshed, st)
    /\ (forall b,
          main http b root existing =
            (all <- sort_movies (dict_values d) ;;
             Return
               (mk_outcome all (added st) refreshed
                  (new_folder_ids (index_existing existing)
                                  (scan_movie_folders root))
                  (map tmdb_id (filter no_screens all))
                  (if b then None else Some all)
                  (disk st) (log st))))
    /\ same_view root (disk st)
    /\ d = map (refresh_entry root) (movies_by_id st)
    /\ refreshed = snd (update_existing_flags (movies_by_id st) (disk st))
    /\ fetches (log st)
       = new_folder_ids (index_existing existing) (scan_movie_folders root)
    /\ skips (log st)
       = filter (fails http)
           (new_folder_ids (index_existing existing) (scan_movie_folders root))
    /\ (forall k m, last_with_id k existing = Some m ->
        dict_get k d = Some (fst (refresh root k m)))
    /\ (forall k, last_with_id k existing = None ->
        ~ In k (scan_movie_folders root) \/ http k = None ->
        dict_get k d = None)
    /\ (forall k data, last_with_id k existing = None ->
        In k (scan_movie_folders root) -> http k = Some data ->
        exists m, fetched_from k data m
                  /\ dict_get k d = Some (fst (refresh root k m)))
    /\ NoDup (dict_keys d)
    /\ ((forall id, In id (scan_movie_folders root) ->
         last_with_id id existing = None -> http id = None) ->
        movies_by_id st = index_existing existing /\ added st = 0)
    /\ (echoes http ->
        (forall id, In id (scan_movie_folders root) -> is_empty id = false) ->
        keyed d).
Proof.
  destruct (add_new_spec http
              (new_folder_ids (index_existing existing) (scan_movie_folders root))
              (mk_state (index_existing existing) [] 0 root []))
    as (st & Hr & Hv & Hf & Hs & Hkeep & Hnew & Hnd & Hfail & Hkey).
  { simpl. intros id Hid. now apply new_folder_ids_in in Hid. }
  simpl in *.
  assert (Hd : fst (update_existing_flags (movies_by_id st) (disk st))
               = map (refresh_entry root) (movies_by_id st)).
  { rewrite update_existing_flags_map. symmetry.
    now apply refresh_entries_view. }
  assert (Hm : merge http root existing
               = Return (map (refresh_entry root) (movies_by_id st),
                         snd (update_existing_flags (movies_by_id st) (disk st)),
                         st)).
  { unfold merge. rewrite Hr. cbn [bind]. rewrite <- Hd.
    now destruct (update_existing_flags (movies_by_id st) (disk st)). }
  eexists _, _, st. split; [exact Hm|].
  split; [intros b; unfold main; rewrite Hm; reflexivity|].
  split; [exact Hv|]. split; [reflexivity|]. split; [reflexivity|].
  split; [exact Hf|]. split; [exact Hs|].
  split.
  { intros k m Hk. rewrite refresh_entries_get, Hkeep.
    - now rewrite index_existing_get, Hk.
    - left. rewrite new_folder_ids_in, index_existing_get, Hk.
      intros [_ H]. discriminate. }
  split.
  { intros k Hk Hno. rewrite refresh_entries_get, Hkeep.
    - now rewrite index_existing_get, Hk.
    - destruct Hno as [Hno|Hno]; [left|now right].
      rewrite new_folder_ids_in. tauto. }
  split.
  { intros k data Hk Hin Hd'.
    destruct (Hnew k data) as (m & Hg & Hm'); [|exact Hd'|].
    - apply new_folder_ids_in. now rewrite index_existing_get.
    - exists m. split; [exact Hm'|]. now rewrite refresh_entries_get, Hg. }
  split.
  { rewrite refresh_entries_keys. apply Hnd, index_existing_wf. }
  split.
  { intros H. apply Hfail. intros id Hid.
    apply new_folder_ids_in in Hid as [Hin Hg].
    rewrite index_existing_get in Hg. now apply H. }
  intros He Hne.
  assert (Hk : keyed (movies_by_id st)).
  { apply Hkey; [exact He| |apply index_existing_wf].
    intros id Hid. apply new_folder_ids_in in Hid as [Hin _]. now apply Hne. }
  unfold keyed in *. rewrite Forall_forall in *.
  intros e He'. apply in_map_iff in He' as ([k m] & <- & Hin).
  specialize (Hk _ Hin). simpl in *.
  destruct (refresh_data root k m) as (<- & _). exact Hk.
Qed.

(** Every record of the dict holds the observations of its folder. *)
Lemma refresh_entries_flags root d :
  Forall (fun entry =>
            flags_are (path_exists root (fst entry) "poster.jpg")
                      (count_screenshots root (fst entry)) (snd entry))
         (map (refresh_entry root) d).
Proof.
  apply Forall_forall. intros e He.
  apply in_map_iff in He as ([k m] & <- & _). apply refresh_flags.
Qed.

(** The records of the output are the values of the dict. *)
Lemma sorted_values d out m :
  NoDup (dict_keys d) ->
  sort_movies (dict_values d) = Return out ->
  In m out <-> exists k, dict_get k d = Some m.
Proof.
  intros Hnd Hs. apply sort_movies_perm in Hs.
  split.
  - intros Hin. apply (Permutation_in _ (Permutation_sym Hs)) in Hin.
    apply dict_values_in in Hin as [k Hin]. exists k. now apply dict_in_get.
  - intros [k Hk]. apply (Permutation_in _ Hs), dict_values_in.
    exists k. now apply dict_get_in.
Qed.

Lemma last_with_id_found id m catalog :
  In m catalog -> tmdb_id m = Some id -> is_empty id = false ->
  exists m0, last_with_id id catalog = Some m0.
Proof.
  intros Hin Hid Hne. unfold last_with_id. rewrite Hne.
  destruct (find (has_id id) (rev catalog)) as [m0|] eqn:E; [now exists m0|].
  apply in_rev in Hin. pose proof (find_none _ _ E m Hin) as H.
  unfold has_id in H. rewrite Hid, String.eqb_refl in H. discriminate.
Qed.

(** In a catalog where the record is the only one with its id, it is the
    one that indexing keeps. *)
Lemma last_with_id_unique id m catalog :
  In m catalog -> tmdb_id m = Some id -> is_empty id = false ->
  (forall m2, In m2 catalog -> tmdb_id m2 = Some id -> m2 = m) ->
  last_with_id id catalog = Some m.
Proof.
  intros Hin Hid Hne Huniq.
  destruct (last_with_id_found id m catalog Hin Hid Hne) as [m0 H0].
  rewrite H0. f_equal. unfold last_with_id in H0. rewrite Hne in H0.
  apply find_some in H0 as [Hin0 Hid0]. apply in_rev in Hin0.
  apply Huniq; [exact Hin0|]. unfold has_id in Hid0.
  destruct (tmdb_id m0) as [i|]; [|discriminate].
  now apply String.eqb_eq in Hid0 as ->.
Qed.

Lemma skips_in id events : In id (skips events) <-> In (Skipped id) events.
Proof.
  induction events as [|e events IH]; simpl; [tauto|].
  destruct e; simpl; rewrite IH; intuition (try discriminate; congruence).
Qed.

Lemma count_occ_nodup (l : list string) id :
  NoDup l ->
  (In id l -> count_occ string_dec l id = 1)
  /\ (~ In id l -> count_occ string_dec l id = 0).
Proof.
  intros Hnd. split.
  - intros Hin. apply (count_occ_In string_dec) in Hin.
    rewrite (NoDup_count_occ string_dec) in Hnd. specialize (Hnd id). lia.
  - apply count_occ_not_In.
Qed.

(** C3.  The loop over the new folders and the refresh always return: a
    failed request aborts nothing.  Each id of the folder scan that the
    catalog does not have is requested exactly once, and no other id is
    requested.  When the request fails, the id is not put into the dict and
    a warning is logged; when it succeeds, the record built from the answer
    is in the dict.  The run then returns as soon as the sort does. *)
Theorem new_ids_fetched_once
    (http : string -> option response) (root : tree) (existing : list movie) :
  NoDup (scan_movie_folders root) ->
  exists d refreshed st,
    merge http root existing = Return (d, refreshed, st)
    /\ (forall id,
          In id (scan_movie_folders root) -> last_with_id id existing = None ->
          count_occ string_dec (fetches (log st)) id = 1)
    /\ (forall id,
          ~ In id (scan_movie_folders root) \/ last_with_id id existing <> None ->
          count_occ string_dec (fetches (log st)) id = 0)
    /\ (forall id,
          In id (scan_movie_folders root) -> last_with_id id existing = None ->
          http id = None ->
          dict_get id d = None /\ In (Skipped id) (log st))
    /\ (forall id data,
          In id (scan_movie_folders root) -> last_with_id id existing = None ->
          http id = Some data ->
          exists m, dict_get id d = Some m
                    /\ tmdb_id m = tmdb_id (movie_data id data)
                    /\ details m = details (movie_data id data))
    /\ (forall b all,
          sort_movies (dict_values d) = Return all ->
          exists out, main http b root existing = Return out
                      /\ all_movies out = all /\ run_log out = log st).
Proof.
  intros Hnd.
  destruct (merge_spec http root existing)
    as (d & refreshed & st & Hm & Hmain & Hv & Hd & _ & Hf & Hs
        & Hold & Hnone & Hnew & _).
  exists d, refreshed, st. split; [exact Hm|].
  assert (Hnd' : NoDup (fetches (log st))).
  { rewrite Hf. now apply NoDup_filter. }
  assert (Hin : forall id, In id (fetches (log st)) <->
                  In id (scan_movie_folders root)
                  /\ last_with_id id existing = None).
  { intros id. now rewrite Hf, new_folder_ids_in, index_existing_get. }
  split.
  { intros id H1 H2. apply (count_occ_nodup _ id Hnd'), Hin. now split. }
  split.
  { intros id H. apply (count_occ_nodup _ id Hnd'). rewrite Hin. tauto. }
  split.
  { intros id H1 H2 H3. split; [apply Hnone; auto|].
    apply skips_in. rewrite Hs. apply filter_In. split.
    - apply new_folder_ids_in. now rewrite index_existing_get.
    - unfold fails. now rewrite H3. }
  split.
  { intros id data H1 H2 H3.
    destruct (Hnew id data H2 H1 H3) as (m & (Hi & _ & Hde) & Hg).
    eexists. split; [exact Hg|].
    destruct (refresh_data root id m) as (<- & _ & <-). now split. }
  intros b all Hsort. rewrite Hmain, Hsort. cbn [bind].
  eexists. split; [reflexivity|]. split; reflexivity.
Qed.

(** The example of the specification: the request for 5 fails, the one for
    6 succeeds; the run returns and its catalog holds 6 and not 5. *)
Lemma new_ids_fetched_once_witness :
  NoDup (scan_movie_folders five_and_six)
  /\ (exists d refreshed st,
        merge only_six five_and_six [] = Return (d, refreshed, st)
        /\ count_occ string_dec (fetches (log st)) "5" = 1
        /\ count_occ string_dec (fetches (log st)) "6" = 1
        /\ dict_get "5" d = None
        /\ In (Skipped "5") (log st)
        /\ dict_mem "6" d = true)
  /\ (exists out,
        main only_six false five_and_six [] = Return out
        /\ map tmdb_id (all_movies out) = [Some "6"]).
Proof.
  assert (Hnd : NoDup (scan_movie_folders five_and_six)).
  { repeat constructor; simpl; intuition discriminate. }
  split; [exact Hnd|]. split.
  - destruct (new_ids_fetched_once only_six five_and_six [] Hnd)
      as (d & refreshed & st & Hm & Hone & _ & Hfail & Hok & _).
    exists d, refreshed, st. split; [exact Hm|].
    split; [apply Hone; [simpl; auto|reflexivity]|].
    split; [apply Hone; [simpl; auto|reflexivity]|].
    destruct (Hfail "5") as [H5 Hs]; [simpl; auto|reflexivity|reflexivity|].
    split; [exact H5|]. split; [exact Hs|].
    destruct (Hok "6" (answer "6" "Six")) as (m & Hg & _);
      [simpl; auto|reflexivity|reflexivity|].
    unfold dict_mem. now rewrite Hg.
  - eexists. split; reflexivity.
Defined.



Lemma movie_eta m :
  m = mk_movie (tmdb_id m) (challenge_id m) (poster m) (screenshots m)
               (screenshot_count m) (details m).
Proof. now destruct m. Qed.

Lemma absent_folder_views root id :
  ~ In id (scan_movie_folders root) ->
  path_exists root id "poster.jpg" = false /\ count_screenshots root id = 0.
Proof.
  intros H. rewrite folder_scan in H.
  unfold path_exists, count_screenshots.
  destruct (folder root id); [exfalso; apply H; discriminate|now split].
Qed.

(** C5, as the code has it.  A record whose id has no folder in the scan is
    kept, with its id, its challenge_id and the keys written at creation
    untouched; its three folder flags are refreshed like those of every
    record and read: no poster, no screenshots, a count of zero. *)
Theorem absent_folder_flags_reset
    (http : string -> option response) (root : tree) (existing : list movie)
    (id : string) (m : movie) :
  last_with_id id existing = Some m ->
  ~ In id (scan_movie_folders root) ->
  exists d refreshed st,
    merge http root existing = Return (d, refreshed, st)
    /\ dict_get id d
       = Some (mk_movie (tmdb_id m) (challenge_id m) (Some false) (Some false)
                        (Some 0) (details m))
    /\ (forall b out,
          main http b root existing = Return out ->
          In (mk_movie (tmdb_id m) (challenge_id m) (Some false) (Some false)
                       (Some 0) (details m))
             (all_movies out)).
Proof.
  intros Hlast Habs.
  destruct (merge_spec http root existing)
    as (d & refreshed & st & Hm & Hmain & _ & Hd & _ & _ & _
        & Hold & _ & _ & Hnd & _).
  exists d, refreshed, st. split; [exact Hm|].
  assert (Hg : dict_get id d
               = Some (mk_movie (tmdb_id m) (challenge_id m) (Some false)
                         (Some false) (Some 0) (details m))).
  { rewrite (Hold id m Hlast). f_equal.
    destruct (refresh_flags root id m) as (Hp & Hs & Hc).
    destruct (refresh_data root id m) as (Hi & Hch & Hde).
    destruct (absent_folder_views root id Habs) as [Ep Ec].
    rewrite Ep, Ec in *.
    rewrite (movie_eta (fst (refresh root id m))).
    now rewrite Hp, Hs, Hc, <- Hi, <- Hch, <- Hde. }
  split; [exact Hg|].
  intros b out Hout. rewrite Hmain in Hout.
  destruct (sort_movies (dict_values d)) as [e|all] eqn:Hsort; [discriminate|].
  injection Hout as <-. cbn [all_movies].
  apply (sorted_values d all _ Hnd Hsort). now exists id.
Qed.

Lemma absent_folder_flags_reset_witness :
  last_with_id "7" [stale] = Some stale
  /\ ~ In "7" (scan_movie_folders five_and_six)
  /\ exists d refreshed st,
       merge offline five_and_six [stale] = Return (d, refreshed, st)
       /\ dict_get "7" d
          = Some (mk_movie (Some "7") (Some "c7") (Some false) (Some false)
                           (Some 0) (details stale))
       /\ (forall b out,
             main offline b five_and_six [stale] = Return out ->
             In (mk_movie (Some "7") (Some "c7") (Some false) (Some false)
                          (Some 0) (details stale))
                (all_movies out)).
Proof.
  assert (Habs : ~ In "7" (scan_movie_folders five_and_six)).
  { simpl. intuition discriminate. }
  split; [reflexivity|]. split; [exact Habs|].
  apply (absent_folder_flags_reset offline five_and_six [stale] "7" stale
           eq_refl Habs).
Defined.

(** C5, as stated, fails: the folder of record 7 is gone, and the record in
    the output is not the record of the catalog, whose flags said that there
    were a poster and three screenshots. *)
Lemma stale_record_rewritten :
  last_with_id "7" [stale] = Some stale
  /\ ~ In "7" (scan_movie_folders [])
  /\ exists out,
       main offline false [] [stale] = Return out
       /\ ~ In stale (all_movies out)
       /\ map poster (all_movies out) = [Some false]
       /\ map screenshot_count (all_movies out) = [Some 0].
Proof.
  split; [reflexivity|]. split; [intros []|].
  eexists. split; [reflexivity|]. simpl.
  split; [intros [H|[]]; discriminate|split; reflexivity].
Qed.

(** C6.  Every record of the catalog that is kept under its id leaves the
    pass with the challenge_id it came with, absent when it was absent; that
    is every record with a non-empty id that no other record of the catalog
    shares.  Every record under an id that the catalog did not have was
    created by this pass and has the empty string.  The output of a run that
    returns holds exactly the records of the dict. *)
Theorem challenge_id_kept
    (http : string -> option response) (root : tree) (existing : list movie) :
  exists d refreshed st,
    merge http root existing = Return (d, refreshed, st)
    /\ (forall id m,
          last_with_id id existing = Some m ->
          exists m', dict_get id d = Some m'
                     /\ challenge_id m' = challenge_id m)
    /\ (forall id m,
          In m existing -> tmdb_id m = Some id -> is_empty id = false ->
          (forall m2, In m2 existing -> tmdb_id m2 = Some id -> m2 = m) ->
          exists m', dict_get id d = Some m'
                     /\ challenge_id m' = challenge_id m)
    /\ (forall id m',
          last_with_id id existing = None -> dict_get id d = Some m' ->
          challenge_id m' = Some EmptyString)
    /\ (forall b out m',
          main http b root existing = Return out ->
          In m' (all_movies out) <-> exists id, dict_get id d = Some m').
Proof.
  destruct (merge_spec http root existing)
    as (d & refreshed & st & Hm & Hmain & _ & Hd & _ & _ & _
        & Hold & Hnone & Hnew & Hnd & _).
  exists d, refreshed, st. split; [exact Hm|].
  assert (Hkept : forall id m,
            last_with_id id existing = Some m ->
            exists m', dict_get id d = Some m'
                       /\ challenge_id m' = challenge_id m).
  { intros id m Hlast. exists (fst (refresh root id m)).
    split; [apply Hold; exact Hlast|].
    destruct (refresh_data root id m) as (_ & <- & _). reflexivity. }
  split; [exact Hkept|].
  split.
  { intros id m Hin Hid Hne Huniq. apply Hkept.
    now apply last_with_id_unique. }
  split.
  { intros id m' Hlast Hg.
    destruct (in_dec string_dec id (scan_movie_folders root)) as [Hin|Hin].
    2:{ rewrite Hnone in Hg; auto. discriminate. }
    destruct (http id) as [data|] eqn:Eh.
    2:{ rewrite Hnone in Hg; auto. discriminate. }
    destruct (Hnew id data Hlast Hin Eh) as (m & (_ & Hc & _) & Hg').
    rewrite Hg' in Hg. injection Hg as <-.
    destruct (refresh_data root id m) as (_ & <- & _). exact Hc. }
  intros b out m' Hout. rewrite Hmain in Hout.
  destruct (sort_movies (dict_values d)) as [e|all] eqn:Hsort; [discriminate|].
  injection Hout as <-. cbn [all_movies].
  apply (sorted_values d all _ Hnd Hsort).
Qed.

Lemma keyed_values d :
  keyed d -> NoDup (dict_keys d) ->
  NoDup (map tmdb_id (dict_values d))
  /\ Forall (fun m => identified m = true) (dict_values d)
  /\ map entry_of (dict_values d) = d.
Proof.
  unfold keyed, dict_keys, dict_values.
  induction 1 as [|[k m] d [Hk Hne] Hd IH]; simpl; intros Hnd.
  - repeat split; constructor.
  - apply NoDup_cons_iff in Hnd as [Hin Hnd].
    destruct (IH Hnd) as (IH1 & IH2 & IH3). simpl in *. split; [|split].
    + constructor; [|exact IH1]. rewrite Hk. intros H.
      apply in_map_iff in H as (m' & Hm' & H).
      apply in_map_iff in H as ([k' m''] & <- & H). simpl in *.
      apply Hin. apply in_map_iff. exists (k', m''). split; [|exact H].
      simpl. rewrite Forall_forall in Hd. destruct (Hd _ H) as [E _].
      simpl in E. congruence.
    + constructor; [|exact IH2]. unfold identified. now rewrite Hk, Hne.
    + unfold entry_of at 1. rewrite Hk. now rewrite IH3.
Qed.

(** C10, as the code has it.  Indexing the catalog drops the records whose
    id is missing or empty and keeps, of the records that share an id, the
    last one, so the dict has each id once.  The records fetched in the run
    carry the id of the answer; provided the remote answers with the id it
    was asked for and no folder has an empty name, every record of the
    output has a non-empty id and no two records have the same id. *)
Theorem merged_ids_distinct
    (http : string -> option response) (root : tree) (existing : list movie) :
  echoes http ->
  (forall id, In id (scan_movie_folders root) -> is_empty id = false) ->
  (forall id, dict_get id (index_existing existing) = last_with_id id existing)
  /\ NoDup (dict_keys (index_existing existing))
  /\ (forall b out,
        main http b root existing = Return out ->
        NoDup (map tmdb_id (all_movies out))
        /\ Forall (fun m => identified m = true) (all_movies out)).
Proof.
  intros He Hne.
  split; [intros id; apply index_existing_get|].
  split; [apply index_existing_wf|].
  intros b out Hout.
  destruct (merge_spec http root existing)
    as (d & refreshed & st & Hm & Hmain & _ & _ & _ & _ & _ & _ & _ & _
        & Hnd & _ & Hkey).
  rewrite Hmain in Hout.
  destruct (sort_movies (dict_values d)) as [e|all] eqn:Hsort; [discriminate|].
  injection Hout as <-. cbn [all_movies].
  apply sort_movies_perm in Hsort.
  destruct (keyed_values d (Hkey He Hne) Hnd) as (H1 & H2 & _).
  split.
  - apply (Permutation_NoDup (Permutation_map tmdb_id Hsort) H1).
  - rewrite Forall_forall in *. intros m Hin.
    apply H2, (Permutation_in _ (Permutation_sym Hsort) Hin).
Qed.

Lemma only_six_echoes : echoes only_six.
Proof.
  intros id data. unfold only_six.
  destruct (String.eqb_spec id "6") as [->|_]; [|discriminate].
  now intros [= <-].
Qed.

Lemma five_and_six_named id :
  In id (scan_movie_folders five_and_six) -> is_empty id = false.
Proof. simpl. intros [<-|[<-|[]]]; reflexivity. Qed.

Lemma merged_ids_distinct_witness :
  echoes only_six
  /\ (forall id, In id (scan_movie_folders five_and_six) -> is_empty id = false)
  /\ (forall b out,
        main only_six b five_and_six [stale; bare_movie EmptyString; stale]
        = Return out ->
        NoDup (map tmdb_id (all_movies out))
        /\ Forall (fun m => identified m = true) (all_movies out)).
Proof.
  split; [exact only_six_echoes|]. split; [exact five_and_six_named|].
  apply (merged_ids_distinct only_six five_and_six
           [stale; bare_movie EmptyString; stale]
           only_six_echoes five_and_six_named).
Defined.

(** C10, as stated, fails: the catalog has film 550, a folder is named after
    the IMDb id of the same film, and the remote answers the request for it
    with the record of film 550.  The output has two records with id 550. *)
Lemma alias_duplicates_id :
  exists out,
    main by_imdb_id false imdb_folder [bare_movie "550"] = Return out
    /\ map tmdb_id (all_movies out) = [Some "550"; Some "550"]
    /\ ~ NoDup (map tmdb_id (all_movies out)).
Proof.
  eexists. split; [reflexivity|]. split; [reflexivity|].
  simpl. intros H. apply NoDup_cons_iff in H as [H _]. apply H. now left.
Qed.

Lemma entries_values movies : dict_values (map entry_of movies) = movies.
Proof.
  unfold dict_values. rewrite map_map. simpl. apply map_id.
Qed.

(** C2, as the code has it.  Take a run that returns, and run again on its
    output with a folder tree that looks the same and a remote that answers
    the same.  Provided the remote answers with the id it was asked for and
    no folder has an empty name, the second run fetches no record, flips no
    flag and returns the same records in the same order. *)
Theorem reconcile_idempotent
    (http : string -> option response) (root root' : tree)
    (existing : list movie) (b b' : bool) (out : outcome) :
  echoes http ->
  (forall id, In id (scan_movie_folders root) -> is_empty id = false) ->
  same_view root root' ->
  main http b root existing = Return out ->
  exists out',
    main http b' root' (all_movies out) = Return out'
    /\ all_movies out' = all_movies out
    /\ added_count out' = 0
    /\ refreshed_count out' = 0.
Proof.
  intros He Hne Hv Hout.
  destruct (merge_spec http root existing)
    as (d & refreshed & st & Hm & Hmain & _ & Hd & _ & _ & _
        & Hold & Hnone & Hnew & Hnd & _ & Hkey).
  specialize (Hkey He Hne).
  rewrite Hmain in Hout.
  destruct (sort_movies (dict_values d)) as [e|all] eqn:Hsort; [discriminate|].
  injection Hout as <-. cbn [all_movies].
  pose proof (sort_movies_perm _ _ Hsort) as Hperm.
  destruct (keyed_values d Hkey Hnd) as (Hids & Hident & Hentries).
  (* the output is indexed record by record *)
  assert (Hidx : index_existing all = map entry_of all).
  { apply index_existing_entries.
    - rewrite Forall_forall in *. intros m Hin.
      apply Hident, (Permutation_in _ (Permutation_sym Hperm) Hin).
    - apply (Permutation_NoDup (Permutation_map tmdb_id Hperm) Hids). }
  assert (Hpe : Permutation d (map entry_of all)).
  { rewrite <- Hentries at 1. now apply Permutation_map. }
  (* its records hold the observations of their folders *)
  assert (Hflags : forall tree', same_view root tree' ->
            Forall (fun entry =>
                      flags_are (path_exists tree' (fst entry) "poster.jpg")
                                (count_screenshots tree' (fst entry))
                                (snd entry))
                   (map entry_of all)).
  { intros tree' [_ Hv']. apply Forall_forall. intros entry Hin.
    apply (Permutation_in _ (Permutation_sym Hpe)) in Hin.
    rewrite Hd in Hin.
    apply in_map_iff in Hin as ([k m] & <- & _).
    unfold refresh_entry. simpl. destruct (Hv' k) as [<- <-].
    apply refresh_flags. }
  (* the second run *)
  destruct (merge_spec http root' all)
    as (d2 & refreshed2 & st2 & Hm2 & Hmain2 & Hvst2 & Hd2 & Hr2 & _ & _ & _
        & _ & _ & _ & Hfail2 & _).
  destruct Hfail2 as [Hmb Hadd].
  { intros id Hin Hlast.
    rewrite <- index_existing_get, Hidx in Hlast.
    assert (Hg : dict_get id d = None).
    { destruct (dict_get id d) as [m|] eqn:E; [|reflexivity].
      apply dict_get_in, (Permutation_in _ Hpe) in E.
      apply dict_mem_get in Hlast. apply dict_mem_false in Hlast.
      exfalso. apply Hlast. unfold dict_keys.
      change id with (fst (id, m)). now apply in_map. }
    apply (same_view_scan _ _ id Hv) in Hin.
    destruct (last_with_id id existing) as [m|] eqn:El.
    { rewrite (Hold _ _ El) in Hg. discriminate. }
    destruct (http id) as [data|] eqn:Eh; [|reflexivity].
    destruct (Hnew id data El Hin Eh) as (m & _ & Hg').
    rewrite Hg' in Hg. discriminate. }
  rewrite Hidx in Hmb.
  assert (Hd2' : d2 = map entry_of all).
  { rewrite Hd2, Hmb, <- update_existing_flags_map.
    now rewrite (update_existing_flags_fixed _ _ (Hflags root' Hv)). }
  assert (Hr2' : refreshed2 = 0).
  { rewrite Hr2, Hmb.
    rewrite (update_existing_flags_fixed _ _
               (Hflags (disk st2) (same_view_trans _ _ _ Hv Hvst2))).
    reflexivity. }
  rewrite Hmain2, Hd2', entries_values, (sort_movies_idem _ _ Hsort).
  cbn [bind]. eexists. split; [reflexivity|]. cbn.
  split; [reflexivity|]. split; [exact Hadd|exact Hr2'].
Qed.

Lemma reconcile_idempotent_witness :
  echoes only_six
  /\ (forall id, In id (scan_movie_folders five_and_six) -> is_empty id = false)
  /\ same_view five_and_six five_and_six
  /\ exists out,
       main only_six false five_and_six [stale; bare_movie "10"] = Return out
       /\ map tmdb_id (all_movies out) = [Some "6"; Some "7"; Some "10"]
       /\ exists out',
            main only_six false five_and_six (all_movies out) = Return out'
            /\ all_movies out' = all_movies out
            /\ added_count out' = 0
            /\ refreshed_count out' = 0.
Proof.
  split; [exact only_six_echoes|]. split; [exact five_and_six_named|].
  split; [apply same_view_refl|].
  eexists. split; [reflexivity|]. split; [reflexivity|].
  apply (reconcile_idempotent only_six five_and_six five_and_six
           [stale; bare_movie "10"] false false _
           only_six_echoes five_and_six_named (same_view_refl _) eq_refl).
Defined.

(** C2, as stated, fails: a folder is named after the IMDb id of a film and
    the remote answers with the record of the film, whose id is 550.  The
    first run files the record under 550; the second run, on the same
    folders, finds the folder new again and adds a second record. *)
Lemma alias_breaks_idempotence :
  exists out out',
    main by_imdb_id false imdb_folder [] = Return out
    /\ main by_imdb_id false imdb_folder (all_movies out) = Return out'
    /\ List.length (all_movies out) = 1
    /\ List.length (all_movies out') = 2
    /\ all_movies out' <> all_movies out.
Proof.
  eexists. eexists. split; [reflexivity|]. split; [reflexivity|].
  split; [reflexivity|]. split; [reflexivity|]. simpl. discriminate.
Qed.

(* ================================================================== *)
(** ** fetch_screenshots.py: the list of ids *)
(* ================================================================== *)

Lemma existsb_eqb_in id seen :
  existsb (String.eqb id) seen = true <-> In id seen.
Proof.
  rewrite existsb_exists. split.
  - intros (x & Hx & E). now apply String.eqb_eq in E as ->.
  - intros H. exists id. split; [exact H|apply String.eqb_refl].
Qed.

Lemma unique_onto_in seen ids id :
  In id (FetchScreenshots.unique_onto seen ids) <-> In id ids /\ ~ In id seen.
Proof.
  revert seen. induction ids as [|x ids IH]; intros seen; simpl; [tauto|].
  destruct (existsb (String.eqb x) seen) eqn:E.
  - apply existsb_eqb_in in E. rewrite IH. split.
    + intros [H1 H2]. auto.
    + intros [[<-|H1] H2]; [contradiction|auto].
  - assert (Hx : ~ In x seen).
    { intros H. apply existsb_eqb_in in H. congruence. }
    simpl. rewrite IH. simpl. split.
    + intros [<-|[H1 H2]]; auto.
    + intros [[<-|H1] H2]; [now left|].
      destruct (string_dec x id) as [<-|Hne]; [now left|right].
      split; [exact H1|]. intros [H|H]; auto.
Qed.

Lemma unique_onto_nodup seen ids :
  NoDup (FetchScreenshots.unique_onto seen ids).
Proof.
  revert seen. induction ids as [|x ids IH]; intros seen; simpl; [constructor|].
  destruct (existsb (String.eqb x) seen); [apply IH|].
  constructor; [|apply IH]. rewrite unique_onto_in. simpl. tauto.
Qed.

Lemma unique_onto_fresh seen ids :
  NoDup ids -> (forall id, In id ids -> ~ In id seen) ->
  FetchScreenshots.unique_onto seen ids = ids.
Proof.
  revert seen. induction ids as [|x ids IH]; intros seen Hnd Hfresh; simpl;
    [reflexivity|].
  apply NoDup_cons_iff in Hnd as [Hx Hnd].
  destruct (existsb (String.eqb x) seen) eqn:E.
  - apply existsb_eqb_in in E. exfalso. apply (Hfresh x); simpl; auto.
  - f_equal. apply IH; [exact Hnd|].
    intros id Hin [<-|H]; [contradiction|]. apply (Hfresh id); simpl; auto.
Qed.

(** The ids handed to fetch_for_ids hold every given id once: no id is
    repeated, none is lost, none is made up, and a list without repeats is
    passed on as it is. *)
Theorem tmdb_ids_unique_once (tmdb_ids : list string) :
  NoDup (FetchScreenshots.tmdb_ids_unique tmdb_ids)
  /\ (forall id,
        In id (FetchScreenshots.tmdb_ids_unique tmdb_ids) <-> In id tmdb_ids)
  /\ (NoDup tmdb_ids -> FetchScreenshots.tmdb_ids_unique tmdb_ids = tmdb_ids).
Proof.
  unfold FetchScreenshots.tmdb_ids_unique.
  split; [apply unique_onto_nodup|]. split.
  - intros id. rewrite unique_onto_in. simpl. tauto.
  - intros H. apply unique_onto_fresh; [exact H|]. intros id _ [].
Qed.

(* ================================================================== *)
(** ** report_assets.py, report_plutogang.py: the summary *)
(* ================================================================== *)

Lemma slice_to_prefix {A : Type} limit (items : list A) :
  exists tail, items = Report.slice_to limit items ++ tail.
Proof.
  unfold Report.slice_to. destruct (limit <? 0)%Z;
    eexists; symmetry; apply firstn_skipn.
Qed.

Lemma slice_to_length {A : Type} limit (items : list A) :
  List.length (Report.slice_to limit items)
  = if (limit <? 0)%Z then List.length items - Z.to_nat (- limit)
    else Nat.min (Z.to_nat limit) (List.length items).
Proof.
  unfold Report.slice_to. destruct (limit <? 0)%Z; rewrite length_firstn; lia.
Qed.

(** For each of the three assets the folders that have it and the folders
    listed as missing it add up to the total. *)
Theorem summary_counts_add_up (limit : Z) (rows : list Report.row) :
  Report.with_meta (Report.summarize limit rows)
  + List.length (Report.missing_meta (Report.summarize limit rows))
  = Report.total (Report.summarize limit rows)
  /\ Report.with_poster (Report.summarize limit rows)
     + List.length (Report.missing_poster (Report.summarize limit rows))
     = Report.total (Report.summarize limit rows)
  /\ Report.with_screens (Report.summarize limit rows)
     + List.length (Report.missing_screens (Report.summarize limit rows))
     = Report.total (Report.summarize limit rows).
Proof.
  simpl. split; [apply filter_length|]. split; [apply filter_length|].
  rewrite <- (filter_length (fun r => (0 <? Report.row_screenshot_count r)%nat) rows).
  f_equal. f_equal. apply filter_ext. intros r.
  destruct (Report.row_screenshot_count r); reflexivity.
Qed.

(** Under each of the three headings the rows shown are the first rows of
    the missing list, in its order.  With a limit that is not negative there
    are as many as the limit, or all of them when the list is shorter; a
    negative limit, which the parser accepts, leaves out that many rows at
    the end of the list instead. *)
Theorem summary_sample_is_prefix (limit : Z) (rows : list Report.row) :
  (exists tail,
     Report.missing_meta (Report.summarize limit rows)
     = Report.shown_meta (Report.summarize limit rows) ++ tail)
  /\ (exists tail,
        Report.missing_poster (Report.summarize limit rows)
        = Report.shown_poster (Report.summarize limit rows) ++ tail)
  /\ (exists tail,
        Report.missing_screens (Report.summarize limit rows)
        = Report.shown_screens (Report.summarize limit rows) ++ tail)
  /\ List.length (Report.shown_meta (Report.summarize limit rows))
     = (if (limit <? 0)%Z
        then List.length (Report.missing_meta (Report.summarize limit rows))
             - Z.to_nat (- limit)
        else Nat.min (Z.to_nat limit)
               (List.length (Report.missing_meta (Report.summarize limit rows))))
  /\ List.length (Report.shown_poster (Report.summarize limit rows))
     = (if (limit <? 0)%Z
        then List.length (Report.missing_poster (Report.summarize limit rows))
             - Z.to_nat (- limit)
        else Nat.min (Z.to_nat limit)
               (List.length (Report.missing_poster (Report.summarize limit rows))))
  /\ List.length (Report.shown_screens (Report.summarize limit rows))
     = (if (limit <? 0)%Z
        then List.length (Report.missing_screens (Report.summarize limit rows))
             - Z.to_nat (- limit)
        else Nat.min (Z.to_nat limit)
               (List.length (Report.missing_screens (Report.summarize limit rows)))).
Proof.
  simpl. repeat split; try apply slice_to_prefix; apply slice_to_length.
Qed.

(* ================================================================== *)
(** ** db_maker.py: main *)
(* ================================================================== *)

(** The record that [process_folder] returns: the fetched keys, an empty
    challenge_id, the poster flag of the folder, and no screenshot_count. *)
Lemma process_folder_record http root id fetched root' evs :
  process_folder http root id = Return (fetched, root', evs) ->
  match fetched with
  | Some m =>
      tmdb_id m = answered_id http id
      /\ challenge_id m = Some EmptyString
      /\ screenshot_count m = None
      /\ poster m = Some (path_exists root id "poster.jpg")
      /\ answers http id = true
  | None => answers http id = false
  end.
Proof.
  unfold process_folder, path_exists, answered_id, answers, fetch_movie_data.
  destruct (folder root id) as [es|]; [|discriminate].
  destruct (delete_metadata root id es) as [r deleted].
  destruct (http id) as [data|]; intros [= <- <- <-]; simpl; auto.
Qed.

Lemma build_spec http ids : forall st,
  (forall id, In id ids -> In id (scan_movie_folders (Normalizers.build_disk st))) ->
  exists st',
    Normalizers.build http ids st = Return st'
    /\ same_view (Normalizers.build_disk st) (Normalizers.build_disk st')
    /\ Normalizers.folder_count st' = Normalizers.folder_count st + List.length ids
    /\ exists added,
         Normalizers.movies st' = Normalizers.movies st ++ added
         /\ map tmdb_id added = map (answered_id http) (filter (answers http) ids)
         /\ Forall (fun m => challenge_id m = Some EmptyString
                             /\ screenshot_count m = None) added.
Proof.
  induction ids as [|id ids IH]; intros st Hscan.
  - exists st. simpl. split; [reflexivity|]. split; [apply same_view_refl|].
    split; [lia|]. exists []. rewrite app_nil_r. repeat split; constructor.
  - destruct (process_folder_spec http (Normalizers.build_disk st) id)
      as (fetched & root' & evs & Hp & Hv & _); [apply Hscan; now left|].
    pose proof (process_folder_record _ _ _ _ _ _ Hp) as Hrec.
    cbn [Normalizers.build]. rewrite Hp. cbn [bind].
    match goal with
    | |- context [Normalizers.build http ids ?s] =>
        destruct (IH s) as (st' & Hr & Hv' & Hc & added & Hm & Hids & Hall)
    end.
    { simpl. intros i Hi. apply (same_view_scan _ _ i Hv), Hscan. now right. }
    simpl in *. exists st'. split; [exact Hr|].
    split; [now apply (same_view_trans _ root')|]. split; [lia|].
    destruct fetched as [m|].
    + destruct Hrec as (Hi & Hch & Hsc & _ & Ha). rewrite Ha.
      exists (m :: added). split; [now rewrite Hm, <- app_assoc|].
      split; [simpl; now rewrite Hi, Hids|]. constructor; auto.
    + rewrite Hrec. exists added. auto.
Qed.

Lemma db_maker_main_records_aux http root :
  exists st,
    Normalizers.main http root = Return st
    /\ Forall (fun m => challenge_id m = Some EmptyString
                        /\ screenshot_count m = None)
              (Normalizers.movies st).
Proof.
  destruct (build_spec http (map fst root) (Normalizers.mk_build [] 0 root []))
    as (st & Hr & _ & _ & added & Hm & _ & Hall); [simpl; auto|].
  simpl in *. exists st. split; [exact Hr|]. now rewrite Hm.
Qed.

(** [main] of db_maker always returns.  It counts every folder, and the
    catalog it writes holds one record for each folder whose request
    succeeded, in the order of the folders; a folder whose request failed
    leaves no record.  Every record has an empty challenge_id and no
    screenshot_count. *)
Theorem db_maker_main_records (http : string -> option response) (root : tree) :
  exists st,
    Normalizers.main http root = Return st
    /\ Normalizers.folder_count st = List.length root
    /\ map tmdb_id (Normalizers.movies st)
       = map (answered_id http) (filter (answers http) (scan_movie_folders root))
    /\ Forall (fun m => challenge_id m = Some EmptyString
                        /\ screenshot_count m = None)
              (Normalizers.movies st)
    /\ same_view root (Normalizers.build_disk st).
Proof.
  destruct (build_spec http (map fst root) (Normalizers.mk_build [] 0 root []))
    as (st & Hr & Hv & Hc & added & Hm & Hids & Hall); [simpl; auto|].
  simpl in *. exists st. split; [exact Hr|].
  split; [now rewrite Hc, length_map|]. rewrite Hm.
  split; [exact Hids|]. split; [exact Hall|exact Hv].
Qed.

(** A catalog that db_maker has just written records no screenshot count, so
    fetch_screenshots takes every record with a non-empty id for one without
    screenshots. *)
Theorem load_missing_ids_after_db_maker
    (http : string -> option response) (root : tree) (st : Normalizers.build_state) :
  Normalizers.main http root = Return st ->
  FetchScreenshots.load_missing_ids (Normalizers.movies st)
  = map tmdb_id (filter identified (Normalizers.movies st)).
Proof.
  intros Hmain.
  destruct (db_maker_main_records_aux http root) as (st' & Hr & Hall).
  rewrite Hmain in Hr. injection Hr as <-.
  unfold FetchScreenshots.load_missing_ids. f_equal.
  apply filter_ext_in. intros m Hin. rewrite Forall_forall in Hall.
  destruct (Hall m Hin) as [_ Hsc].
  unfold FetchScreenshots.wants_screens, identified. now rewrite Hsc.
Qed.

Lemma load_missing_ids_after_db_maker_witness :
  exists st,
    Normalizers.main only_six five_and_six = Return st
    /\ FetchScreenshots.load_missing_ids (Normalizers.movies st)
       = map tmdb_id (filter identified (Normalizers.movies st)).
Proof.
  eexists. split; [reflexivity|].
  apply (load_missing_ids_after_db_maker only_six five_and_six _ eq_refl).
Defined.

(* ================================================================== *)
(** ** update_movies.py: the counters and the lists of main *)
(* ================================================================== *)

(** The number that update_existing_flags returns is the number of records
    whose poster flag or screenshots flag was missing or wrong.  A record
    whose two flags were right is not counted, whatever happens to its
    screenshot_count. *)
Theorem update_existing_flags_counts_flips (d : dict) (root : tree) :
  snd (update_existing_flags d root)
  = List.length
      (filter (fun entry =>
                 flag_differs (poster (snd entry))
                              (path_exists root (fst entry) "poster.jpg")
                 || flag_differs (screenshots (snd entry))
                                 (0 <? count_screenshots root (fst entry))%nat)
              d)
  /\ snd (update_existing_flags d root) <= List.length d.
Proof.
  assert (H : snd (update_existing_flags d root)
              = List.length
                  (filter (fun entry =>
                     flag_differs (poster (snd entry))
                                  (path_exists root (fst entry) "poster.jpg")
                     || flag_differs (screenshots (snd entry))
                          (0 <? count_screenshots root (fst entry))%nat) d)).
  { induction d as [|[k m] d IH]; [reflexivity|].
    cbn [update_existing_flags].
    destruct (refresh root k m) as [m' changed] eqn:Er.
    destruct (update_existing_flags d root) as [d' updated]. simpl in IH.
    cbn [snd fst filter]. rewrite IH.
    assert (Hc : changed
                 = flag_differs (poster m) (path_exists root k "poster.jpg")
                   || flag_differs (screenshots m)
                                   (0 <? count_screenshots root k)%nat).
    { unfold refresh in Er.
      destruct (flag_differs (poster m) _) eqn:E1; simpl in Er;
        destruct (flag_differs (screenshots m) _) eqn:E2; simpl in Er;
        injection Er as _ <-; reflexivity. }
    rewrite <- Hc. destruct changed; reflexivity. }
  split; [exact H|]. rewrite H. apply filter_length_le.
Qed.

(** In the output of a run every record has the three folder flags, and they
    agree: the screenshots flag says whether the count is positive.  The
    list of movies missing screenshots holds the ids of the records whose
    screenshots flag is false, in output order. *)
Theorem output_flags_agree
    (http : string -> option response) (b : bool) (root : tree)
    (existing : list movie) (out : outcome) :
  main http b root existing = Return out ->
  Forall (fun m =>
            exists p n,
              poster m = Some p
              /\ screenshot_count m = Some n
              /\ screenshots m = Some (0 <? n)%nat)
         (all_movies out)
  /\ UpdateMovies.missing_screens out
     = map tmdb_id
         (filter (fun m =>
                    match screenshots m with
                    | Some false => true
                    | _ => false
                    end)
                 (all_movies out)).
Proof.
  intros Hout.
  destruct (merge_spec http root existing)
    as (d & refreshed & st & Hm & Hmain & _ & Hd & _ & _ & _ & _ & _ & _
        & Hnd & _).
  rewrite Hmain in Hout.
  destruct (sort_movies (dict_values d)) as [e|all] eqn:Hsort; [discriminate|].
  injection Hout as <-. cbn [all_movies UpdateMovies.missing_screens].
  assert (Hall : Forall (fun m =>
                   exists p n,
                     poster m = Some p
                     /\ screenshot_count m = Some n
                     /\ screenshots m = Some (0 <? n)%nat) all).
  { apply Forall_forall. intros m Hin.
    apply (sorted_values d all m Hnd Hsort) in Hin as [k Hk].
    apply dict_get_in in Hk. rewrite Hd in Hk.
    apply in_map_iff in Hk as ([k' m'] & [= <- <-] & _).
    destruct (refresh_flags root k' m') as (Hp & Hs & Hc).
    eexists _, _. split; [exact Hp|]. split; [exact Hc|exact Hs]. }
  split; [exact Hall|]. f_equal. apply filter_ext_in. intros m Hin.
  rewrite Forall_forall in Hall. destruct (Hall m Hin) as (p & n & _ & Hc & Hs).
  unfold no_screens. rewrite Hc, Hs. now destruct n.
Qed.

Lemma output_flags_agree_witness :
  exists out,
    main only_six false five_and_six [stale] = Return out
    /\ Forall (fun m =>
                 exists p n,
                   poster m = Some p
                   /\ screenshot_count m = Some n
                   /\ screenshots m = Some (0 <? n)%nat)
              (all_movies out)
    /\ UpdateMovies.missing_screens out
       = map tmdb_id
           (filter (fun m =>
                      match screenshots m with
                      | Some false => true
                      | _ => false
                      end)
                   (all_movies out)).
Proof.
  eexists. split; [reflexivity|].
  apply (output_flags_agree only_six false five_and_six [stale] _ eq_refl).
Defined.

(** The ids that fetch_screenshots reads from the catalog of a run are the
    ids that the run listed as missing screenshots, provided the remote
    answers with the id it was asked for and no folder has an empty name. *)
Theorem load_missing_ids_after_update
    (http : string -> option response) (b : bool) (root : tree)
    (existing : list movie) (out : outcome) :
  echoes http ->
  (forall id, In id (scan_movie_folders root) -> is_empty id = false) ->
  main http b root existing = Return out ->
  FetchScreenshots.load_missing_ids (all_movies out)
  = UpdateMovies.missing_screens out.
Proof.
  intros He Hne Hout.
  destruct (merge_spec http root existing)
    as (d & refreshed & st & Hm & Hmain & _ & _ & _ & _ & _ & _ & _ & _
        & Hnd & _ & Hkey).
  rewrite Hmain in Hout.
  destruct (sort_movies (dict_values d)) as [e|all] eqn:Hsort; [discriminate|].
  injection Hout as <-. cbn [all_movies UpdateMovies.missing_screens].
  unfold FetchScreenshots.load_missing_ids. f_equal.
  apply filter_ext_in. intros m Hin.
  destruct (keyed_values d (Hkey He Hne) Hnd) as (_ & Hid & _).
  rewrite Forall_forall in Hid.
  apply sort_movies_perm, Permutation_sym in Hsort.
  specialize (Hid m (Permutation_in _ Hsort Hin)).
  unfold FetchScreenshots.wants_screens, no_screens, identified in *.
  destruct (tmdb_id m); [|discriminate]. rewrite Hid. apply andb_true_r.
Qed.

Lemma load_missing_ids_after_update_witness :
  echoes only_six
  /\ (forall id, In id (scan_movie_folders five_and_six) -> is_empty id = false)
  /\ exists out,
       main only_six false five_and_six [stale] = Return out
       /\ FetchScreenshots.load_missing_ids (all_movies out)
          = UpdateMovies.missing_screens out.
Proof.
  split; [exact only_six_echoes|]. split; [exact five_and_six_named|].
  eexists. split; [reflexivity|].
  apply (load_missing_ids_after_update only_six false five_and_six [stale] _
           only_six_echoes five_and_six_named eq_refl).
Defined.

(* ================================================================== *)
(** ** db_maker.py: get_decade and format_revenue *)
(* ================================================================== *)

Lemma isdigit_cases c :
  isdigit c = true ->
  In c ["0"; "1"; "2"; "3"; "4"; "5"; "6"; "7"; "8"; "9"]%char.
Proof.
  destruct c as [[|] [|] [|] [|] [|] [|] [|] [|]];
    vm_compute; intros H; try discriminate H; tauto.
Qed.

Lemma hd_split_on_none q s :
  str_exists q s = false -> hd EmptyString (split_on q s) = s.
Proof.
  induction s as [|c s IH]; simpl; [reflexivity|].
  intros H. apply orb_false_iff in H as [Hc Hs]. rewrite Hc.
  specialize (IH Hs). destruct (split_on q s); simpl in *; congruence.
Qed.

Lemma hd_split_on_first q s sep rest :
  str_exists q s = false -> q sep = true ->
  hd EmptyString (split_on q (s ++ String sep rest)%string) = s.
Proof.
  intros Hs Hsep. induction s as [|c s IH]; simpl.
  - now rewrite Hsep.
  - simpl in Hs. apply orb_false_iff in Hs as [Hc Hs]. rewrite Hc.
    specialize (IH Hs).
    destruct (split_on q (s ++ String sep rest)%string); simpl in *; congruence.
Qed.

Lemma isdigit_not_hyphen c : isdigit c = true -> is_char "-" c = false.
Proof.
  intros H. apply isdigit_cases in H. simpl in H.
  repeat destruct H as [H|H]; subst; try reflexivity. destruct H.
Qed.

(** For a release date that starts with a year of four digits, the first
    one not zero, followed by a hyphen or by nothing, the decade is the
    first three digits of the year followed by 0s. *)
Theorem get_decade_four_digits (a b c d : ascii) (rest : string) :
  isdigit a = true -> isdigit b = true -> isdigit c = true ->
  isdigit d = true -> a <> "0"%char ->
  Normalizers.get_decade
    (Some (String a (String b (String c (String d (String "-" rest))))))
  = String a (String b (String c "0s"))
  /\ Normalizers.get_decade
       (Some (String a (String b (String c (String d EmptyString)))))
     = String a (String b (String c "0s")).
Proof.
  intros Ha Hb Hc Hd Hne.
  assert (Hyear : Normalizers.get_decade
                    (Some (String a (String b (String c (String d EmptyString)))))
                  = String a (String b (String c "0s"))).
  { assert (Hall :
      forallb (fun a => forallb (fun b => forallb (fun c => forallb (fun d =>
        String.eqb
          (Normalizers.get_decade
             (Some (String a (String b (String c (String d EmptyString))))))
          (String a (String b (String c "0s"))))
        ["0"; "1"; "2"; "3"; "4"; "5"; "6"; "7"; "8"; "9"]%char)
        ["0"; "1"; "2"; "3"; "4"; "5"; "6"; "7"; "8"; "9"]%char)
        ["0"; "1"; "2"; "3"; "4"; "5"; "6"; "7"; "8"; "9"]%char)
        ["1"; "2"; "3"; "4"; "5"; "6"; "7"; "8"; "9"]%char = true)
      by (vm_compute; reflexivity).
    rewrite forallb_forall in Hall.
    assert (Ha' : In a ["1"; "2"; "3"; "4"; "5"; "6"; "7"; "8"; "9"]%char).
    { apply isdigit_cases in Ha. destruct Ha as [Ha|Ha]; [congruence|exact Ha]. }
    specialize (Hall a Ha'). rewrite forallb_forall in Hall.
    specialize (Hall b (isdigit_cases b Hb)). rewrite forallb_forall in Hall.
    specialize (Hall c (isdigit_cases c Hc)). rewrite forallb_forall in Hall.
    specialize (Hall d (isdigit_cases d Hd)). now apply String.eqb_eq in Hall. }
  split; [|exact Hyear]. rewrite <- Hyear.
  unfold Normalizers.get_decade.
  change (String a (String b (String c (String d (String "-" rest)))))
    with (String a (String b (String c (String d EmptyString)))
          ++ String "-" rest)%string.
  rewrite hd_split_on_first, hd_split_on_none; try reflexivity;
    simpl; now rewrite !isdigit_not_hyphen.
Qed.

Lemma get_decade_four_digits_witness :
  isdigit "1" = true /\ isdigit "9" = true /\ isdigit "8" = true
  /\ isdigit "5" = true /\ "1"%char <> "0"%char
  /\ Normalizers.get_decade (Some "1985-07-03") = "1980s".
Proof.
  assert (Hne : "1"%char <> "0"%char) by discriminate.
  split; [reflexivity|]. split; [reflexivity|]. split; [reflexivity|].
  split; [reflexivity|]. split; [exact Hne|].
  exact (proj1 (get_decade_four_digits "1" "9" "8" "5" "07-03"
                  eq_refl eq_refl eq_refl eq_refl Hne)).
Defined.

Lemma str_filter_app q a b :
  str_filter q (a ++ b)%string = (str_filter q a ++ str_filter q b)%string.
Proof.
  induction a as [|c a IH]; simpl; [reflexivity|].
  destruct (q c); simpl; now rewrite IH.
Qed.

Lemma str_filter_rev_onto q s : forall acc,
  str_filter q (str_rev_onto s acc)
  = str_rev_onto (str_filter q s) (str_filter q acc).
Proof.
  induction s as [|c s IH]; intros acc; simpl; [reflexivity|].
  rewrite IH. simpl. now destruct (q c).
Qed.

Lemma str_filter_rev q s : str_filter q (str_rev s) = str_rev (str_filter q s).
Proof. unfold str_rev. now rewrite str_filter_rev_onto. Qed.

Lemma str_rev_onto_twice s : forall a b,
  str_rev_onto (str_rev_onto s a) b = str_rev_onto a (s ++ b)%string.
Proof.
  induction s as [|c s IH]; intros a b; simpl; [reflexivity|].
  now rewrite IH.
Qed.

Lemma str_rev_involutive s : str_rev (str_rev s) = s.
Proof.
  unfold str_rev. rewrite str_rev_onto_twice. simpl.
  induction s as [|c s IH]; simpl; congruence.
Qed.

Lemma str_filter_all q s : str_forall q s = true -> str_filter q s = s.
Proof.
  induction s as [|c s IH]; simpl; [reflexivity|].
  intros H. apply andb_true_iff in H as [Hc Hs]. now rewrite Hc, IH.
Qed.

(** Grouping adds commas and nothing else. *)
Lemma group3_digits s : str_filter not_comma (Normalizers.group3 s) = str_filter not_comma s.
Proof.
  assert (H : forall n s, String.length s <= n ->
                str_filter not_comma (Normalizers.group3 s)
                = str_filter not_comma s).
  { clear s. induction n as [|n IH]; intros s Hlen.
    - destruct s; [reflexivity|simpl in Hlen; lia].
    - destruct s as [|a [|b [|c [|d rest]]]]; try reflexivity.
      assert (E := IH (String d rest) ltac:(simpl in *; lia)).
      change (Normalizers.group3 (String a (String b (String c (String d rest)))))
        with (String a (String b (String c
                (String "," (Normalizers.group3 (String d rest)))))).
      cbn [str_filter]. rewrite E. reflexivity. }
  apply (H (String.length s)). lia.
Qed.

Lemma uint_digits d :
  str_forall not_comma (DecimalString.NilEmpty.string_of_uint d) = true.
Proof. induction d; simpl; auto. Qed.

(** Without its commas the formatted revenue is the dollar sign followed by
    the number as [str] prints it, whatever its size and sign; a value that
    is not a number gives $0. *)
Theorem format_revenue_digits (n : Z) :
  str_filter not_comma (Normalizers.format_revenue (Normalizers.RevInt n))
  = String "$" (Normalizers.str_of_int n)
  /\ Normalizers.format_revenue Normalizers.RevNone = "$0"
  /\ (forall s e, int_of_str s = Raise e ->
      Normalizers.format_revenue (Normalizers.RevStr s) = "$0").
Proof.
  split.
  - assert (E : Normalizers.format_revenue (Normalizers.RevInt n)
                = String "$" (Normalizers.with_commas n)) by reflexivity.
    assert (E2 : forall x, str_filter not_comma (String "$" x)
                           = String "$" (str_filter not_comma x))
      by reflexivity.
    rewrite E, E2. unfold Normalizers.with_commas.
    f_equal.
    rewrite str_filter_app, str_filter_rev, group3_digits, str_filter_rev,
      str_rev_involutive.
    unfold Normalizers.str_of_int.
    destruct n as [|p|p]; simpl; try reflexivity;
      now rewrite (str_filter_all _ _ (uint_digits _)).
  - split; [reflexivity|]. intros s e H.
    unfold Normalizers.format_revenue. simpl. now rewrite H.
Qed.

(* ================================================================== *)
(** ** db_maker.py: the cast of a fetched record *)
(* ================================================================== *)

Ltac order_cases :=
  unfold order_lt, order_le;
  repeat match goal with
         | |- context [member_order ?a] => destruct (member_order a)
         end;
  simpl; intros; try discriminate; try reflexivity; auto;
  repeat match goal with
         | H : Return _ = Return _ |- _ => inversion H; clear H
         end;
  try (f_equal; lia); try lia.

Lemma order_lt_asym a b :
  order_lt a b = Return true -> order_lt b a = Return false.
Proof. order_cases. Qed.

Lemma order_lt_chain x e y :
  order_lt x e = Return true -> order_lt y e = Return false ->
  order_lt y x = Return false.
Proof. order_cases. Qed.

Lemma order_lt_false_le a b : order_lt b a = Return false -> order_le a b.
Proof. order_cases. Qed.

(** The cast of a fetched record: the members of the answer are put in
    billing order, those without an order last, and the names of the first
    six are kept in that order.  Sorting them never raises. *)
Theorem top_cast_first_six (members : list cast_member) :
  exists billed,
    sorted order_lt members = Return billed
    /\ Permutation members billed
    /\ StronglySorted order_le billed
    /\ top_cast members = map member_name (firstn 6 billed)
    /\ List.length (top_cast members) = Nat.min 6 (List.length members).
Proof.
  destruct (sorted_onto_returns order_lt members []) as [billed Hs].
  { intros x y _ _. unfold order_lt. now eexists. }
  fold (sorted order_lt members) in Hs.
  exists billed. split; [exact Hs|].
  pose proof (sorted_perm order_lt members billed Hs) as Hp.
  split; [exact Hp|]. split.
  - apply (StronglySorted_weaken (fun x y => order_lt y x = Return false)).
    + intros a b. apply order_lt_false_le.
    + exact (sorted_ordered order_lt order_lt_asym order_lt_chain
               members billed Hs).
  - unfold top_cast. rewrite Hs. split; [reflexivity|].
    rewrite length_map, length_firstn, (Permutation_length Hp). reflexivity.
Qed.

(* ================================================================== *)
(** ** update_movies.py: the totals of a run *)
(* ================================================================== *)

Lemma add_new_count http ids : forall st st',
  NoDup ids ->
  (forall id, In id ids -> dict_mem id (movies_by_id st) = false) ->
  add_new http ids st = Return st' ->
  added st' = added st + List.length (filter (answers http) ids)
  /\ List.length (movies_by_id st')
     = List.length (movies_by_id st) + List.length (filter (answers http) ids).
Proof.
  induction ids as [|id ids IH]; intros st st' Hnd Hfresh; simpl.
  - intros [= <-]. lia.
  - apply NoDup_cons_iff in Hnd as [Hid Hnd].
    destruct (process_folder http (disk st) id)
      as [e|[[fetched root'] evs]] eqn:Hp; simpl; [discriminate|].
    pose proof (process_folder_record _ _ _ _ _ _ Hp) as Hrec.
    destruct fetched as [m|].
    + destruct Hrec as (_ & _ & _ & _ & ->). intros H.
      apply IH in H; [|exact Hnd|].
      * simpl in H. rewrite dict_set_fresh in H by (apply Hfresh; now left).
        rewrite length_app in H. simpl in *. lia.
      * simpl. intros i Hi. apply dict_mem_get.
        rewrite dict_get_set_other by (intros ->; contradiction).
        apply dict_mem_get, Hfresh. now right.
    + rewrite Hrec. intros H. apply IH in H; [|exact Hnd|].
      * simpl in H. exact H.
      * simpl. intros i Hi. apply Hfresh. now right.
Qed.

(** With distinct folder names, the number of records in the output of a
    run is the number of ids indexed from the catalog plus the number added,
    and the number added is the number of new folders whose request
    succeeded. *)
Theorem main_totals
    (http : string -> option response) (b : bool) (root : tree)
    (existing : list movie) (out : outcome) :
  NoDup (scan_movie_folders root) ->
  main http b root existing = Return out ->
  List.length (all_movies out)
  = List.length (index_existing existing) + added_count out
  /\ added_count out = List.length (filter (answers http) (listed_new out))
  /\ forall id,
       In id (listed_new out)
       <-> In id (scan_movie_folders root) /\ last_with_id id existing = None.
Proof.
  intros Hnd Hout. unfold main in Hout.
  destruct (merge http root existing) as [e|[[d refreshed] st]] eqn:Hm;
    [discriminate|].
  simpl in Hout.
  destruct (sort_movies (dict_values d)) as [e|all] eqn:Hsort; [discriminate|].
  injection Hout as <-. cbn [all_movies added_count listed_new].
  unfold merge in Hm.
  destruct (add_new http _ _) as [e|st0] eqn:Ha; [discriminate|].
  simpl in Hm.
  pose proof (update_existing_flags_map (movies_by_id st0) (disk st0)) as Hmap.
  destruct (update_existing_flags (movies_by_id st0) (disk st0)) as [d' r'].
  injection Hm as <- <- <-. simpl in Hmap.
  apply add_new_count in Ha.
  - simpl in Ha. destruct Ha as [Hadd Hlen].
    apply sort_movies_perm, Permutation_length in Hsort.
    rewrite <- Hsort. unfold dict_values. rewrite length_map, Hmap, length_map.
    split; [lia|]. split; [exact Hadd|].
    intros id. now rewrite new_folder_ids_in, index_existing_get.
  - now apply NoDup_filter.
  - simpl. intros id Hid. apply new_folder_ids_in in Hid as [_ Hg].
    now apply dict_mem_get.
Qed.

Lemma main_totals_witness :
  NoDup (scan_movie_folders five_and_six)
  /\ exists out,
       main only_six false five_and_six [stale; stale] = Return out
       /\ List.length (all_movies out)
          = List.length (index_existing [stale; stale]) + added_count out
       /\ added_count out
          = List.length (filter (answers only_six) (listed_new out)).
Proof.
  assert (Hnd : NoDup (scan_movie_folders five_and_six)).
  { repeat constructor; simpl; intuition discriminate. }
  split; [exact Hnd|]. eexists. split; [reflexivity|].
  destruct (main_totals only_six false five_and_six [stale; stale] _ Hnd eq_refl)
    as (H1 & H2 & _).
  split; [exact H1|exact H2].
Defined.

(* ================================================================== *)
(** ** update_movies.py: sorting and indexing again *)
(* ================================================================== *)

(** A catalog that sort_movies returned is in order: sorting it again
    returns it as it is. *)
Theorem sort_movies_twice (catalog sorted_catalog : list movie) :
  sort_movies catalog = Return sorted_catalog ->
  sort_movies sorted_catalog = Return sorted_catalog.
Proof. apply sort_movies_idem. Qed.

Lemma sort_movies_twice_witness :
  sort_movies [bare_movie "10"; bare_movie "2"; bare_movie "1"]
  = Return [bare_movie "1"; bare_movie "2"; bare_movie "10"]
  /\ sort_movies [bare_movie "1"; bare_movie "2"; bare_movie "10"]
     = Return [bare_movie "1"; bare_movie "2"; bare_movie "10"].
Proof.
  split; [reflexivity|].
  exact (sort_movies_twice [bare_movie "10"; bare_movie "2"; bare_movie "1"]
           _ eq_refl).
Defined.

(** When every record of the catalog has a non-empty id and no two records
    share one, indexing loses nothing: the values of the dict are the
    catalog, in its order, and each record is found under its id. *)
Theorem index_existing_round_trip (catalog : list movie) :
  Forall (fun m => identified m = true) catalog ->
  NoDup (map tmdb_id catalog) ->
  dict_values (index_existing catalog) = catalog
  /\ forall m id,
       In m catalog -> tmdb_id m = Some id ->
       dict_get id (index_existing catalog) = Some m.
Proof.
  intros Hid Hnd. rewrite (index_existing_entries catalog Hid Hnd).
  split; [apply entries_values|].
  intros m id Hin Hm. apply dict_in_get.
  - rewrite <- (index_existing_entries catalog Hid Hnd). apply index_existing_wf.
  - apply in_map_iff. exists m. split; [|exact Hin].
    unfold entry_of. now rewrite Hm.
Qed.

Lemma index_existing_round_trip_witness :
  Forall (fun m => identified m = true) [bare_movie "2"; stale]
  /\ NoDup (map tmdb_id [bare_movie "2"; stale])
  /\ dict_values (index_existing [bare_movie "2"; stale]) = [bare_movie "2"; stale].
Proof.
  assert (Hid : Forall (fun m => identified m = true) [bare_movie "2"; stale])
    by (repeat constructor).
  assert (Hnd : NoDup (map tmdb_id [bare_movie "2"; stale])).
  { repeat constructor; simpl; intuition discriminate. }
  split; [exact Hid|]. split; [exact Hnd|].
  exact (proj1 (index_existing_round_trip _ Hid Hnd)).
Defined.

(* ================================================================== *)
(** ** fetch_tmdb_assets.py: the targets of main *)
(* ================================================================== *)

(** The targets are the rows of the scan with some rows left out, so they
    come in the order of the scan, and every one has an id.  In missing mode
    the targets are exactly the rows with an id that lack the poster (unless
    --screenshots-only) or have no screenshot (unless --posters-only), so a
    folder that has both is never fetched for; with both --posters-only and
    --screenshots-only nothing is a target.  In ids mode the targets are
    exactly the rows whose id is one of the given ids, and without --ids
    nothing is a target. *)
Theorem targets_are_selected
    (ids : option (list string)) (posters_only screenshots_only : bool)
    (rows : list FetchAssets.row) :
  (forall m, exists keep,
      FetchAssets.targets m ids posters_only screenshots_only rows
      = filter keep rows)
  /\ (forall m r,
        In r (FetchAssets.targets m ids posters_only screenshots_only rows) ->
        In r rows /\ FetchAssets.has_id r = true)
  /\ (forall r,
        In r (FetchAssets.targets FetchAssets.Missing ids posters_only
                screenshots_only rows)
        <-> In r rows
            /\ FetchAssets.has_id r = true
            /\ ((FetchAssets.has_poster r = false /\ screenshots_only = false)
                \/ (FetchAssets.screenshot_count r = 0 /\ posters_only = false)))
  /\ FetchAssets.targets FetchAssets.Missing ids true true rows = []
  /\ (forall r,
        In r (FetchAssets.targets FetchAssets.Ids ids posters_only
                screenshots_only rows)
        <-> In r rows
            /\ FetchAssets.has_id r = true
            /\ exists id l,
                 FetchAssets.tmdb_id r = Some id /\ ids = Some l /\ In id l)
  /\ FetchAssets.targets FetchAssets.Ids None posters_only screenshots_only rows
     = [].
Proof.
  split.
  { intros m. destruct m; simpl; eexists; reflexivity. }
  split.
  { intros m r Hin. destruct m; simpl in Hin;
      apply filter_In in Hin as [Hr Hc];
      apply andb_true_iff in Hc as [Hc _]; auto. }
  split.
  { intros r. simpl. rewrite filter_In, andb_true_iff, orb_true_iff,
      !andb_true_iff, !negb_true_iff, Nat.eqb_eq. tauto. }
  split.
  { simpl. induction rows as [|r rows IH]; simpl; [reflexivity|].
    now rewrite !andb_false_r. }
  split.
  { intros r. simpl. rewrite filter_In, andb_true_iff. split.
    - intros (Hr & Hid & Hc). split; [exact Hr|]. split; [exact Hid|].
      destruct (FetchAssets.tmdb_id r) as [id|]; [|discriminate].
      destruct ids as [l|]; [|discriminate].
      exists id, l. repeat split. now apply existsb_eqb_in.
    - intros (Hr & Hid & id & l & Hi & -> & Hin). split; [exact Hr|].
      split; [exact Hid|]. rewrite Hi. now apply existsb_eqb_in. }
  simpl. induction rows as [|r rows IH]; simpl; [reflexivity|].
  destruct (FetchAssets.tmdb_id r); now rewrite ?andb_false_r.
Qed.

(* ================================================================== *)
(** ** fetch_tmdb_assets.py: process_movie *)
(* ================================================================== *)

Lemma write_bytes_adds dest entries entries' :
  FetchAssets.write_bytes dest entries = Some entries' ->
  exists added,
    entries' = entries ++ added
    /\ Forall (fun e => d_is_file e = true /\ d_name e = dest) added.
Proof.
  unfold FetchAssets.write_bytes.
  destruct (existsb _ entries); [discriminate|].
  destruct (has_entry entries dest); intros [= <-].
  - exists []. now rewrite app_nil_r.
  - eexists. split; [reflexivity|]. now repeat constructor.
Qed.

Lemma download_image_adds download path dest entries entries' :
  FetchAssets.download_image download path dest entries = Some entries' ->
  exists added,
    entries' = entries ++ added
    /\ Forall (fun e => d_is_file e = true /\ d_name e = dest) added.
Proof.
  unfold FetchAssets.download_image. destruct (download path); [|discriminate].
  apply write_bytes_adds.
Qed.

(** The loop over the backdrops starts the downloads of the first [k]
    paths, in order, to the names numbered from [idx] on; it only adds
    files, and it runs to the end exactly when every download succeeds. *)
Lemma download_screens_spec download paths :
  forall idx entries written log fine entries' written' log',
    FetchAssets.download_screens download idx paths entries written log
    = (fine, entries', written', log') ->
    exists k added,
      k <= List.length paths
      /\ log' = log ++ combine (firstn k paths)
                               (map FetchAssets.screenshot_name (seq idx k))
      /\ entries' = entries ++ added
      /\ Forall (fun e => d_is_file e = true) added
      /\ (fine = true -> k = List.length paths /\ written' = written + k).
Proof.
  induction paths as [|path paths IH];
    intros idx entries written log fine entries' written' log'; simpl.
  - intros [= <- <- <- <-]. exists 0, []. simpl. rewrite !app_nil_r.
    repeat split; auto.
  - destruct (FetchAssets.download_image download path
                (FetchAssets.screenshot_name idx) entries) as [e1|] eqn:Ed.
    + intros H. apply IH in H as (k & added & Hk & Hlog & He & Hf & Hfine).
      apply download_image_adds in Ed as (added1 & -> & Hf1).
      exists (S k), (added1 ++ added). split; [lia|]. split.
      { rewrite Hlog, <- app_assoc. reflexivity. }
      split; [now rewrite He, app_assoc|]. split.
      { apply Forall_app. split; [|exact Hf].
        eapply Forall_impl; [|exact Hf1]. now intros e [H _]. }
      intros Ht. destruct (Hfine Ht) as [-> ->]. split; lia.
    + intros [= <- <- <- <-]. exists 1, []. simpl. rewrite app_nil_r.
      split; [lia|]. split; [reflexivity|]. split; [reflexivity|].
      split; [constructor|discriminate].
Qed.

(** process_movie never removes or renames an entry of the folder: the
    listing it leaves is the old one followed by the files it created.  A row
    without an id is skipped before any request, and when the request for
    the images fails nothing is downloaded.  Otherwise the downloads it
    starts are, in order, at most one to poster.jpg, of the first poster of
    the answer, and then the first [k] of the answer's backdrops cut to the
    limit, to screenshot_1.jpg up to screenshot_k.jpg.  Without --overwrite
    an existing poster.jpg is not downloaded again and, when a screenshot is
    there already, no screenshot is downloaded; otherwise the first poster
    is downloaded unless --screenshots-only, and a run that succeeds has
    downloaded all the backdrops within the limit unless --posters-only.  On
    success the count reported is [k]. *)
Theorem process_movie_downloads
    (images : string -> option FetchAssets.assets) (download : string -> bool)
    (r : FetchAssets.row) (entries : list dirent) (limit : Z)
    (overwrite posters_only screens_only : bool) :
  (FetchAssets.has_id r = false ->
   FetchAssets.process_movie images download r entries limit overwrite
     posters_only screens_only
   = (FetchAssets.mk_report FetchAssets.Skip FetchAssets.NoTmdbId false 0,
      entries, []))
  /\ (forall id,
        FetchAssets.tmdb_id r = Some id -> is_empty id = false ->
        images id = None ->
        FetchAssets.process_movie images download r entries limit overwrite
          posters_only screens_only
        = (FetchAssets.mk_report FetchAssets.Failed FetchAssets.Images false 0,
           entries, []))
  /\ (forall id found,
        FetchAssets.tmdb_id r = Some id -> is_empty id = false ->
        images id = Some found ->
        exists rep entries' added poster_log k,
          FetchAssets.process_movie images download r entries limit overwrite
            posters_only screens_only
          = (rep, entries',
             poster_log
             ++ combine
                  (firstn k (Report.slice_to limit (FetchAssets.backdrops found)))
                  (map FetchAssets.screenshot_name (seq 1 k)))
          /\ entries' = entries ++ added
          /\ Forall (fun e => d_is_file e = true) added
          /\ (poster_log = []
              \/ exists first rest,
                   FetchAssets.posters found = first :: rest
                   /\ poster_log = [(first, "poster.jpg")])
          /\ k <= List.length
                    (Report.slice_to limit (FetchAssets.backdrops found))
          /\ (overwrite = false -> has_entry entries "poster.jpg" = true ->
              poster_log = [])
          /\ (overwrite = false ->
              existsb FetchAssets.glob_screenshot entries = true -> k = 0)
          /\ (posters_only = true -> k = 0)
          /\ (screens_only = true -> poster_log = [])
          /\ (screens_only = false ->
              overwrite = true \/ has_entry entries "poster.jpg" = false ->
              forall first rest,
                FetchAssets.posters found = first :: rest ->
                poster_log = [(first, "poster.jpg")])
          /\ (FetchAssets.status_of rep = FetchAssets.Done ->
              FetchAssets.screenshots_written rep = k)
          /\ (FetchAssets.status_of rep = FetchAssets.Done ->
              posters_only = false ->
              overwrite = true
              \/ existsb FetchAssets.glob_screenshot entries = false ->
              k = List.length
                    (Report.slice_to limit (FetchAssets.backdrops found)))).
Proof.
  unfold FetchAssets.process_movie, FetchAssets.has_id.
  split.
  { destruct (FetchAssets.tmdb_id r) as [id|]; [|reflexivity].
    intros H. apply negb_false_iff in H. now rewrite H. }
  split.
  { intros id Hid Hne Him. now rewrite Hid, Hne, Him. }
  intros id found Hid Hne Him. rewrite Hid, Hne, Him.
  (* the poster *)
  assert (Hposter :
    exists fine wp entries1 log1 added1,
      (if negb screens_only
          && (overwrite || negb (has_entry entries "poster.jpg"))
       then
         match FetchAssets.posters found with
         | first :: _ =>
             match FetchAssets.download_image download first "poster.jpg" entries with
             | Some entries' => (true, true, entries', [(first, "poster.jpg")])
             | None => (false, false, entries, [(first, "poster.jpg")])
             end
         | [] => (true, false, entries, [])
         end
       else (true, false, entries, []))
      = (fine, wp, entries1, log1)
      /\ entries1 = entries ++ added1
      /\ Forall (fun e => d_is_file e = true) added1
      /\ (log1 = []
          \/ exists first rest,
               FetchAssets.posters found = first :: rest
               /\ log1 = [(first, "poster.jpg")])
      /\ (overwrite = false -> has_entry entries "poster.jpg" = true -> log1 = [])
      /\ (screens_only = true -> log1 = [])
      /\ (screens_only = false ->
          overwrite = true \/ has_entry entries "poster.jpg" = false ->
          forall first rest,
            FetchAssets.posters found = first :: rest ->
            log1 = [(first, "poster.jpg")])
      /\ existsb FetchAssets.glob_screenshot entries1
         = existsb FetchAssets.glob_screenshot entries).
  { destruct (negb screens_only
              && (overwrite || negb (has_entry entries "poster.jpg"))) eqn:Ec.
    2:{ exists true, false, entries, [], []. rewrite app_nil_r.
        repeat split; auto.
        intros -> Ho. exfalso. simpl in Ec.
        destruct Ho as [->|Hp]; simpl in Ec; [discriminate|].
        rewrite Hp, orb_true_r in Ec. discriminate. }
    apply andb_true_iff in Ec as [Es Eo].
    assert (Hno : overwrite = false -> has_entry entries "poster.jpg" = true ->
                  False).
    { intros -> Hp. rewrite Hp in Eo. discriminate. }
    assert (Hso : screens_only = true -> False).
    { intros ->. discriminate. }
    destruct (FetchAssets.posters found) as [|first rest].
    { exists true, false, entries, [], []. rewrite app_nil_r.
      repeat split; auto. intros _ _ first rest. discriminate. }
    destruct (FetchAssets.download_image download first "poster.jpg" entries)
      as [e1|] eqn:Ed.
    - apply download_image_adds in Ed as (added1 & -> & Hf).
      exists true, true, (entries ++ added1), [(first, "poster.jpg")], added1.
      split; [reflexivity|]. split; [reflexivity|]. split.
      { eapply Forall_impl; [|exact Hf]. now intros e [H _]. }
      split; [right; now exists first, rest|].
      split; [intros H1 H2; destruct (Hno H1 H2)|].
      split; [intros H; destruct (Hso H)|].
      split; [intros _ _ first' rest' [= <- _]; reflexivity|].
      rewrite existsb_app.
      assert (Hn : existsb FetchAssets.glob_screenshot added1 = false).
      { clear -Hf. induction Hf as [|e l [_ Hn] _ IH]; [reflexivity|].
        simpl. rewrite IH. unfold FetchAssets.glob_screenshot. now rewrite Hn. }
      rewrite Hn. apply orb_false_r.
    - exists false, false, entries, [(first, "poster.jpg")], [].
      rewrite app_nil_r. split; [reflexivity|]. split; [reflexivity|].
      split; [constructor|]. split; [right; now exists first, rest|].
      split; [intros H1 H2; destruct (Hno H1 H2)|].
      split; [intros H; destruct (Hso H)|].
      split; [intros _ _ first' rest' [= <- _]; reflexivity|reflexivity]. }
  destruct Hposter
    as (fine & wp & entries1 & log1 & added1 & -> & He1 & Hf1 & Hl1 & Hov
        & Hso & Hfirst & Hglob).
  destruct fine; simpl.
  2:{ exists (FetchAssets.mk_report FetchAssets.Failed FetchAssets.PosterDl false 0),
        entries1, added1, log1, 0.
      simpl. rewrite app_nil_r. repeat split; auto; try lia; discriminate. }
  destruct (negb posters_only
            && (overwrite || negb (existsb FetchAssets.glob_screenshot entries1)))
    eqn:Ec.
  2:{ exists (FetchAssets.mk_report FetchAssets.Done FetchAssets.NoReason wp 0),
        entries1, added1, log1, 0.
      simpl. rewrite app_nil_r.
      repeat split; auto; try lia.
      intros _ -> Ho. exfalso. rewrite Hglob in Ec. simpl in Ec.
      destruct Ho as [->|Hg]; simpl in Ec; [discriminate|].
      rewrite Hg, orb_true_r in Ec. discriminate. }
  apply andb_true_iff in Ec as [Ep Eo].
  destruct (FetchAssets.download_screens download 1
              (Report.slice_to limit (FetchAssets.backdrops found))
              entries1 0 log1)
    as [[[fine entries2] written] log2] eqn:Els.
  apply download_screens_spec in Els as (k & added2 & Hk & -> & -> & Hf2 & Hfine).
  exists (if fine
          then FetchAssets.mk_report FetchAssets.Done FetchAssets.NoReason wp written
          else FetchAssets.mk_report FetchAssets.Failed FetchAssets.ScreenDl false 0),
    ((entries ++ added1) ++ added2), (added1 ++ added2), log1, k.
  split; [destruct fine; subst; reflexivity|].
  split; [subst; now rewrite app_assoc|].
  split; [now apply Forall_app|].
  split; [exact Hl1|]. split; [exact Hk|].
  split; [exact Hov|]. split.
  { intros -> Hg. rewrite Hglob, Hg in Eo. discriminate. }
  split; [intros ->; discriminate|]. split; [exact Hso|].
  split; [exact Hfirst|].
  split.
  - destruct fine; simpl; [intros _|discriminate].
    destruct (Hfine eq_refl) as [_ ->]. reflexivity.
  - destruct fine; simpl; [intros _ _ _|discriminate].
    now destruct (Hfine eq_refl) as [-> _].
Qed.

Lemma process_movie_downloads_witness :
  exists rep entries' log,
    FetchAssets.process_movie
      (fun _ => Some (FetchAssets.mk_assets ["/p.jpg"; "/q.jpg"]
                        ["/a.jpg"; "/b.jpg"; "/c.jpg"]))
      (fun _ => true)
      (FetchAssets.mk_row "Alien (1979)" (Some "348") true false 0)
      [mk_dirent "348_metadata.txt" true] 2 false false false
    = (rep, entries', log)
    /\ hd_error log = Some ("/p.jpg", "poster.jpg")
    /\ exists added, entries' = [mk_dirent "348_metadata.txt" true] ++ added.
Proof.
  destruct (proj2 (proj2 (process_movie_downloads
              (fun _ => Some (FetchAssets.mk_assets ["/p.jpg"; "/q.jpg"]
                                ["/a.jpg"; "/b.jpg"; "/c.jpg"]))
              (fun _ => true)
              (FetchAssets.mk_row "Alien (1979)" (Some "348") true false 0)
              [mk_dirent "348_metadata.txt" true] 2 false false false))
              "348" _ eq_refl eq_refl eq_refl)
    as (rep & entries' & added & poster_log & k & Hrun & Hadd & _ & _ & _ & _
        & _ & _ & _ & Hfirst & _).
  rewrite (Hfirst eq_refl (or_intror eq_refl) _ _ eq_refl) in Hrun.
  eexists rep, entries', _. split; [exact Hrun|].
  split; [reflexivity|]. now exists added.
Defined.

(* ================================================================== *)
(** ** fetch_screenshots.py: fetch_for_ids *)
(* ================================================================== *)

Lemma folder_app root id k :
  folder (root ++ [(id, [])]) k =
    match folder root k with
    | Some es => Some es
    | None => if String.eqb id k then Some [] else None
    end.
Proof.
  induction root as [|[n es] root IH]; simpl; [reflexivity|].
  destruct (String.eqb n k); [reflexivity|exact IH].
Qed.

Lemma folder_put root id entries k :
  folder (FetchForIds.put_folder root id entries) k =
    if String.eqb id k
    then match folder root k with Some _ => Some entries | None => None end
    else folder root k.
Proof.
  induction root as [|[n es] root IH]; simpl.
  - now destruct (String.eqb id k).
  - destruct (String.eqb_spec n id) as [->|Hne]; simpl.
    + now destruct (String.eqb id k).
    + rewrite IH. destruct (String.eqb_spec n k) as [->|Hnk]; [|reflexivity].
      destruct (String.eqb_spec id k) as [->|_]; [contradiction|reflexivity].
Qed.

Lemma folder_ensure root id k :
  folder (FetchForIds.ensure_folder root id) k =
    match folder root k with
    | Some es => Some es
    | None => if String.eqb id k then Some [] else None
    end.
Proof.
  unfold FetchForIds.ensure_folder.
  destruct (folder root id) as [es|] eqn:E.
  - destruct (folder root k) eqn:Ek; [reflexivity|].
    destruct (String.eqb_spec id k) as [->|_]; [congruence|reflexivity].
  - apply folder_app.
Qed.

Lemma asked_downloads id started last :
  (forall i, last <> FetchForIds.Asking i) ->
  FetchForIds.asked
    (map (fun d => FetchForIds.Downloading id (fst d) (snd d)) started ++ [last])
  = [].
Proof.
  intros H. induction started as [|d started IH]; simpl; [|exact IH].
  destruct last; try reflexivity. now destruct (H id0).
Qed.

Lemma asked_app a b :
  FetchForIds.asked (a ++ b) = FetchForIds.asked a ++ FetchForIds.asked b.
Proof.
  induction a as [|e a IH]; [reflexivity|].
  destruct e; simpl; now rewrite IH.
Qed.

(** The work on one id. *)
Lemma fetch_one_spec backdrops download limit overwrite root id root1 steps :
  FetchForIds.fetch_one backdrops download limit overwrite root id
  = (root1, steps) ->
  folder root1 id <> None
  /\ (forall k es, folder root k = Some es ->
      exists added, folder root1 k = Some (es ++ added)
                    /\ Forall (fun e => d_is_file e = true) added)
  /\ (forall k, k <> id -> folder root1 k = folder root k)
  /\ FetchForIds.asked steps
     = (if overwrite || negb (FetchForIds.has_screens root id) then [id] else [])
  /\ (overwrite = false -> FetchForIds.has_screens root id = true ->
      folder root1 id = folder root id).
Proof.
  unfold FetchForIds.fetch_one, FetchForIds.has_screens.
  pose proof (folder_ensure root id) as He.
  set (root0 := FetchForIds.ensure_folder root id) in *.
  assert (Hid : folder root0 id
                = Some match folder root id with Some es => es | None => [] end).
  { rewrite He, String.eqb_refl. now destruct (folder root id). }
  rewrite Hid.
  set (existing := match folder root id with Some es => es | None => [] end) in *.
  assert (Hglob : existsb FetchAssets.glob_screenshot existing
                  = match folder root id with
                    | Some es => existsb FetchAssets.glob_screenshot es
                    | None => false
                    end).
  { unfold existing. now destruct (folder root id). }
  rewrite <- Hglob.
  assert (Hkeep0 : forall k es, folder root k = Some es ->
                     folder root0 k = Some es).
  { intros k es Hk. now rewrite He, Hk. }
  assert (Hother0 : forall k, k <> id -> folder root0 k = folder root k).
  { intros k Hk. rewrite He. destruct (folder root k); [reflexivity|].
    destruct (String.eqb_spec id k); congruence. }
  assert (Hbase :
            folder root0 id <> None
            /\ (forall k es, folder root k = Some es ->
                exists added, folder root0 k = Some (es ++ added)
                              /\ Forall (fun e => d_is_file e = true) added)
            /\ (forall k, k <> id -> folder root0 k = folder root k)).
  { split; [rewrite Hid; discriminate|]. split; [|exact Hother0].
    intros k es Hk. exists []. rewrite app_nil_r. split; [auto|constructor]. }
  assert (Hskip : overwrite = false ->
                  existsb FetchAssets.glob_screenshot existing = true ->
                  folder root0 id = folder root id).
  { intros _ Hg. rewrite Hid. unfold existing in *.
    destruct (folder root id); [reflexivity|discriminate]. }
  destruct (existsb FetchAssets.glob_screenshot existing) eqn:Eg;
    destruct overwrite; cbn [andb negb orb].
  - (* screenshots there, overwrite *)
    destruct (backdrops id) as [found|].
    2:{ intros [= <- <-]. destruct Hbase as (H1 & H2 & H3).
        repeat split; auto; try discriminate. }
    destruct (Report.slice_to limit found) as [|p paths] eqn:Es.
    { intros [= <- <-]. destruct Hbase as (H1 & H2 & H3).
      repeat split; auto; try discriminate. }
    destruct (FetchAssets.download_screens download 1 (p :: paths) existing 0 [])
      as [[[fine entries'] written] started] eqn:Ed.
    cbv beta iota. intros [= <- <-].
    apply download_screens_spec in Ed as (k & added & _ & _ & -> & Hf & _).
    split; [rewrite folder_put, String.eqb_refl, Hid; discriminate|].
    split.
    { intros k0 es Hk. rewrite folder_put.
      destruct (String.eqb_spec id k0) as [<-|Hne].
      - rewrite Hid. exists added. split; [|exact Hf].
        unfold existing. now rewrite Hk.
      - exists []. rewrite app_nil_r. split; [auto|constructor]. }
    split.
    { intros k0 Hk. rewrite folder_put.
      destruct (String.eqb_spec id k0); [congruence|auto]. }
    split; [|discriminate].
    simpl. rewrite asked_downloads; [reflexivity|]. now destruct fine.
  - (* screenshots there, no overwrite: skipped *)
    intros [= <- <-]. destruct Hbase as (H1 & H2 & H3).
    repeat split; auto.
  - (* no screenshot, overwrite *)
    destruct (backdrops id) as [found|].
    2:{ intros [= <- <-]. destruct Hbase as (H1 & H2 & H3).
        repeat split; auto; try discriminate. }
    destruct (Report.slice_to limit found) as [|p paths] eqn:Es.
    { intros [= <- <-]. destruct Hbase as (H1 & H2 & H3).
      repeat split; auto; try discriminate. }
    destruct (FetchAssets.download_screens download 1 (p :: paths) existing 0 [])
      as [[[fine entries'] written] started] eqn:Ed.
    cbv beta iota. intros [= <- <-].
    apply download_screens_spec in Ed as (k & added & _ & _ & -> & Hf & _).
    split; [rewrite folder_put, String.eqb_refl, Hid; discriminate|].
    split.
    { intros k0 es Hk. rewrite folder_put.
      destruct (String.eqb_spec id k0) as [<-|Hne].
      - rewrite Hid. exists added. split; [|exact Hf].
        unfold existing. now rewrite Hk.
      - exists []. rewrite app_nil_r. split; [auto|constructor]. }
    split.
    { intros k0 Hk. rewrite folder_put.
      destruct (String.eqb_spec id k0); [congruence|auto]. }
    split; [|discriminate].
    simpl. rewrite asked_downloads; [reflexivity|]. now destruct fine.
  - (* no screenshot, no overwrite *)
    destruct (backdrops id) as [found|].
    2:{ intros [= <- <-]. destruct Hbase as (H1 & H2 & H3).
        repeat split; auto; try discriminate. }
    destruct (Report.slice_to limit found) as [|p paths] eqn:Es.
    { intros [= <- <-]. destruct Hbase as (H1 & H2 & H3).
      repeat split; auto; try discriminate. }
    destruct (FetchAssets.download_screens download 1 (p :: paths) existing 0 [])
      as [[[fine entries'] written] started] eqn:Ed.
    cbv beta iota. intros [= <- <-].
    apply download_screens_spec in Ed as (k & added & _ & _ & -> & Hf & _).
    split; [rewrite folder_put, String.eqb_refl, Hid; discriminate|].
    split.
    { intros k0 es Hk. rewrite folder_put.
      destruct (String.eqb_spec id k0) as [<-|Hne].
      - rewrite Hid. exists added. split; [|exact Hf].
        unfold existing. now rewrite Hk.
      - exists []. rewrite app_nil_r. split; [auto|constructor]. }
    split.
    { intros k0 Hk. rewrite folder_put.
      destruct (String.eqb_spec id k0); [congruence|auto]. }
    split; [|discriminate].
    simpl. rewrite asked_downloads; [reflexivity|]. now destruct fine.
Qed.

(** For ids that are plain folder names, fetch_for_ids goes through all the
    ids, whatever fails on the way.
    Afterwards every id has a folder, created empty when it was missing.
    No folder loses an entry: each listing is the old one followed by files
    that were added, and the folders of other ids are as they were.  Without
    --overwrite a folder that holds a screenshot is left as it is.  For ids
    without repeats, the list of backdrops is requested once for each id that
    has no screenshot (for every id with --overwrite), in the order given,
    and for no other. *)
Theorem fetch_for_ids_spec
    (backdrops : string -> option (list string)) (download : string -> bool)
    (limit : Z) (overwrite : bool) (tmdb_ids : list string)
    (Hplain : Forall (fun id => FetchForIds.plain_name id = true) tmdb_ids) :
  forall root,
  exists root' steps,
    FetchForIds.fetch_for_ids backdrops download tmdb_ids limit overwrite root
    = (root', steps)
    /\ (forall id, In id tmdb_ids -> folder root' id <> None)
    /\ (forall k es, folder root k = Some es ->
        exists added, folder root' k = Some (es ++ added)
                      /\ Forall (fun e => d_is_file e = true) added)
    /\ (forall k, ~ In k tmdb_ids -> folder root' k = folder root k)
    /\ (overwrite = false ->
        forall k, FetchForIds.has_screens root k = true ->
                  folder root' k = folder root k)
    /\ (NoDup tmdb_ids ->
        FetchForIds.asked steps
        = filter (fun id => overwrite || negb (FetchForIds.has_screens root id))
                 tmdb_ids).
Proof.
  clear Hplain.
  induction tmdb_ids as [|id ids IH]; intros root.
  - exists root, []. split; [reflexivity|]. split; [intros id []|].
    split.
    { intros k es Hk. exists []. rewrite app_nil_r. split; [auto|constructor]. }
    repeat split; auto.
  - cbn [FetchForIds.fetch_for_ids].
    destruct (FetchForIds.fetch_one backdrops download limit overwrite root id)
      as [root1 steps1] eqn:E1.
    apply fetch_one_spec in E1 as (Hex & Hkeep & Hother & Hasked & Hskip).
    destruct (IH root1) as (root2 & steps2 & -> & Hall & Hkeep2 & Hother2
                            & Hskip2 & Hasked2).
    exists root2, (steps1 ++ steps2). split; [reflexivity|].
    split.
    { intros k [<-|Hk]; [|now apply Hall].
      destruct (folder root1 id) as [es|] eqn:Ef; [|congruence].
      destruct (Hkeep2 id es Ef) as (added & -> & _). discriminate. }
    split.
    { intros k es Hk. destruct (Hkeep k es Hk) as (a1 & H1 & Hf1).
      destruct (Hkeep2 k _ H1) as (a2 & H2 & Hf2).
      exists (a1 ++ a2). rewrite H2, app_assoc. split; [reflexivity|].
      now apply Forall_app. }
    split.
    { intros k Hk. rewrite Hother2 by (intros H; apply Hk; now right).
      apply Hother. intros ->. apply Hk. now left. }
    assert (Hsame : forall k,
              k <> id ->
              FetchForIds.has_screens root1 k = FetchForIds.has_screens root k).
    { intros k Hk. unfold FetchForIds.has_screens. now rewrite Hother. }
    split.
    { intros Ho k Hk.
      assert (H1 : folder root1 k = folder root k).
      { destruct (string_dec k id) as [->|Hne]; [now apply Hskip|now apply Hother]. }
      rewrite Hskip2; [exact H1|exact Ho|].
      unfold FetchForIds.has_screens in *. now rewrite H1. }
    intros Hnd. apply NoDup_cons_iff in Hnd as [Hid Hnd].
    rewrite asked_app, Hasked, (Hasked2 Hnd). cbn [filter].
    assert (Hf : filter (fun i => overwrite || negb (FetchForIds.has_screens root1 i)) ids
                 = filter (fun i => overwrite || negb (FetchForIds.has_screens root i)) ids).
    { apply filter_ext_in. intros k Hk. rewrite Hsame; [reflexivity|].
      intros ->. contradiction. }
    rewrite Hf.
    now destruct (overwrite || negb (FetchForIds.has_screens root id)).
Qed.

Lemma fetch_for_ids_spec_witness :
  Forall (fun id => FetchForIds.plain_name id = true) ["603"; "604"]
  /\ exists root' steps,
       FetchForIds.fetch_for_ids
         (fun _ => Some ["/a.jpg"; "/b.jpg"; "/c.jpg"]) (fun _ => true)
         ["603"; "604"] 2 false
         [("603", [mk_dirent "screenshot_1.jpg" true])]
       = (root', steps)
       /\ FetchForIds.asked steps = ["604"].
Proof.
  assert (Hplain : Forall (fun id => FetchForIds.plain_name id = true)
                          ["603"; "604"]) by (repeat constructor).
  split; [exact Hplain|].
  destruct (fetch_for_ids_spec
              (fun _ => Some ["/a.jpg"; "/b.jpg"; "/c.jpg"]) (fun _ => true)
              2 false ["603"; "604"] Hplain
              [("603", [mk_dirent "screenshot_1.jpg" true])])
    as (root' & steps & Hrun & _ & _ & _ & _ & Hasked).
  exists root', steps. split; [exact Hrun|].
  rewrite Hasked; [reflexivity|].
  repeat constructor; simpl; intuition discriminate.
Defined.

(* ================================================================== *)
(** ** report_assets.py: find_metadata_file and scan *)
(* ================================================================== *)

Lemma ltb_false_leb x y : String.ltb y x = false -> String.leb x y = true.
Proof.
  unfold String.ltb, String.leb. rewrite (String.compare_antisym x y).
  destruct (String.compare y x); simpl; congruence.
Qed.

(** Sorting by name never raises; it permutes the list and leaves the names
    in ascending order. *)
Lemma sorted_by_spec {A : Type} (name_of : A -> string) (l : list A) :
  Permutation l (Scan.sorted_by name_of l)
  /\ StronglySorted
       (fun a b => String.leb (name_of a) (name_of b) = true)
       (Scan.sorted_by name_of l).
Proof.
  unfold Scan.sorted_by.
  destruct (sorted_onto_returns
              (fun a b => Return (String.ltb (name_of a) (name_of b))) l [])
    as [out Hs].
  { intros x y _ _. now eexists. }
  fold (sorted (fun a b => Return (String.ltb (name_of a) (name_of b))) l) in Hs.
  rewrite Hs. split; [now apply sorted_perm in Hs|].
  apply (StronglySorted_weaken
           (fun x y => Return (String.ltb (name_of y) (name_of x)) = Return false)).
  - intros a b [= H]. now apply ltb_false_leb.
  - refine (sorted_ordered _ _ _ l out Hs).
    + intros a b [= H]. f_equal. now apply ltb_asym.
    + intros x e y [= H1] [= H2]. f_equal.
      destruct (String.ltb (name_of y) (name_of x)) eqn:E; [|reflexivity].
      now rewrite (ltb_trans _ _ _ E H1) in H2.
Qed.

(** find_metadata_file returns nothing exactly when no entry of the folder
    matches the pattern; otherwise it returns an entry that matches, and no
    entry that matches has a smaller name. *)
Theorem find_metadata_file_first (items : list Scan.item) :
  match Scan.find_metadata_file items with
  | None => forall i, In i items -> Scan.is_metadata i = false
  | Some m =>
      In m items
      /\ Scan.is_metadata m = true
      /\ forall i, In i items -> Scan.is_metadata i = true ->
                   String.leb (Scan.item_name m) (Scan.item_name i) = true
  end.
Proof.
  unfold Scan.find_metadata_file.
  destruct (sorted_by_spec Scan.item_name (filter Scan.is_metadata items))
    as [Hp Hs].
  destruct (Scan.sorted_by Scan.item_name (filter Scan.is_metadata items))
    as [|m rest].
  - intros i Hin. destruct (Scan.is_metadata i) eqn:E; [|reflexivity].
    assert (H : In i (filter Scan.is_metadata items))
      by (apply filter_In; now split).
    apply (Permutation_in _ Hp) in H. destruct H.
  - assert (Hm : In m (filter Scan.is_metadata items)).
    { apply (Permutation_in _ (Permutation_sym Hp)). now left. }
    apply filter_In in Hm as [Hin Hmeta]. split; [exact Hin|].
    split; [exact Hmeta|]. intros i Hi Hmi.
    assert (H : In i (m :: rest)).
    { apply (Permutation_in _ Hp), filter_In. now split. }
    apply StronglySorted_inv in Hs as [_ Hf]. rewrite Forall_forall in Hf.
    destruct H as [<-|H]; [|now apply Hf].
    destruct (String.leb_total (Scan.item_name m) (Scan.item_name m));
      assumption.
Qed.

(** scan gives one row for each directory of the root and none for what is
    not a directory, in ascending order of the folder names.  A row without
    metadata has no id. *)
Theorem scan_rows (root : list (string * option (list Scan.item))) :
  Permutation (map Scan.scan_entry (Scan.directories root)) (Scan.scan root)
  /\ Permutation (map fst (Scan.directories root))
                 (map Report.folder_name (Scan.scan root))
  /\ StronglySorted (fun a b => String.leb a b = true)
                    (map Report.folder_name (Scan.scan root))
  /\ Forall (fun r =>
               Report.has_metadata r = false ->
               Report.row_tmdb_id r = EmptyString)
            (Scan.scan root).
Proof.
  unfold Scan.scan. destruct (sorted_by_spec fst root) as [Hp Hs].
  assert (Hd : Permutation (Scan.directories root)
                           (Scan.directories (Scan.sorted_by fst root))).
  { unfold Scan.directories. now apply Permutation_flat_map. }
  assert (Hnames : forall l, map Report.folder_name (map Scan.scan_entry l)
                             = map fst l).
  { intros l. rewrite map_map. reflexivity. }
  rewrite Hnames. split; [now apply Permutation_map|].
  split; [now apply Permutation_map|]. split.
  - clear Hp Hd.
    induction Hs as [|a l _ IH Hf]; simpl; [constructor|].
    assert (Hall : Forall (fun b => String.leb (fst a) b = true)
                          (map fst (Scan.directories l))).
    { apply Forall_forall. intros x Hx.
      apply in_map_iff in Hx as (y & <- & Hy).
      unfold Scan.directories in Hy.
      apply in_flat_map in Hy as (e & He & Hy).
      rewrite Forall_forall in Hf. specialize (Hf e He).
      destruct (snd e); [|destruct Hy].
      destruct Hy as [<-|[]]. exact Hf. }
    destruct (snd a); simpl; [|exact IH]. now constructor.
  - apply Forall_forall. intros r Hr.
    apply in_map_iff in Hr as (entry & <- & _).
    unfold Scan.scan_entry. simpl.
    destruct (Scan.find_metadata_file (snd entry)); [discriminate|reflexivity].
Qed.
